(** * BOLD resampling workflows (fmriprep/workflows/bold/resampling.py)

    A shallow embedding of the resampling workflows: every workflow-building
    function becomes a function from the values bound to its [inputnode] to
    the values its nodes produce, one [let] per node and one argument per
    [workflow.connect] entry.  Interfaces that wrap numerical kernels and
    external data (ANTs, FSL smoothing and statistics, Connectome Workbench,
    TemplateFlow) are operations of type classes; the utility interfaces
    whose behaviour the properties rest on ([niu.Merge], [KeySelect], the
    voxelwise operators of [fslmaths]) are written out. *)

From Stdlib Require Import Ascii String QArith Qabs Qminmax Lqa.
From stdpp Require Import base option list gmap strings fin_maps.

Local Open Scope string_scope.

(** ** Python values and exceptions *)

Module Py.

(** The values found in a template specification dictionary. *)
Inductive pyval : Type :=
| PyNone
| PyInt (z : Z)
| PyStr (s : string).

#[global] Instance pyval_eq_dec : EqDecision pyval.
Proof. solve_decision. Defined.

(** Python truthiness, as used by [a or b]. *)
Definition truthy (v : pyval) : bool :=
  match v with
  | PyNone => false
  | PyInt z => negb (Z.eqb z 0)
  | PyStr s => negb (String.eqb s EmptyString)
  end.

(** [a or b] *)
Definition py_or (a b : pyval) : pyval := if truthy a then a else b.

Inductive exn : Type :=
| ValueError
| RuntimeError
| IndexError
| TypeError.

#[global] Instance exn_eq_dec : EqDecision exn.
Proof. solve_decision. Defined.

Inductive result (A : Type) : Type :=
| Ok (a : A)
| Raise (e : exn).
Arguments Ok {A} a.
Arguments Raise {A} e.

#[global] Instance result_ret : MRet result := fun A a => Ok a.
#[global] Instance result_bind : MBind result := fun A B f m =>
  match m with Ok a => f a | Raise e => Raise e end.
#[global] Instance result_fmap : FMap result := fun A B f m =>
  match m with Ok a => Ok (f a) | Raise e => Raise e end.

Definition is_Ok {A} (r : result A) : Prop := exists a, r = Ok a.
Definition is_Raise {A} (r : result A) : Prop := exists e, r = Raise e.

#[global] Instance is_Ok_dec {A} (r : result A) : Decision (is_Ok r).
Proof.
  refine (match r with Ok a => left _ | Raise e => right _ end).
  - by exists a.
  - by intros [a ?].
Defined.

#[global] Instance is_Raise_dec {A} (r : result A) : Decision (is_Raise r).
Proof.
  refine (match r with Ok a => right _ | Raise e => left _ end).
  - by intros [e ?].
  - by exists e.
Defined.

(** A value on a nipype input or output port: undefined, a single item,
    or a Python list of items. *)
Inductive port (A : Type) : Type :=
| Undefined
| Single (a : A)
| Multi (l : list A).
Arguments Undefined {A}.
Arguments Single {A} a.
Arguments Multi {A} l.

(** [s.split(":")[0]] *)
Fixpoint split_colon_0 (s : string) : string :=
  match s with
  | EmptyString => EmptyString
  | String c s' =>
      if Ascii.eqb c ":"%char then EmptyString else String c (split_colon_0 s')
  end.

(** [l[0]] *)
Definition index0 {A} (l : list A) : result A :=
  match l with
  | [] => Raise IndexError
  | x :: _ => Ok x
  end.

End Py.
Export Py.

Abbreviation dict := (gmap string pyval).

(** ** Helper functions of the module *)

(** [_split_spec] *)
Definition _split_spec (in_target : string * dict) : string * string * dict :=
  let '(space, spec) := in_target in
  let template := split_colon_0 space in
  (space, template, spec).

(** [_first] *)
Definition _first {A} (inlist : list A) : result A := index0 inlist.

(** [_aslist], on a value that is an item or a list of items. *)
Definition _aslist {A} (in_value : A + list A) : list A :=
  match in_value with
  | inr l => l
  | inl a => [a]
  end.

(** [_is_native] *)
Definition _is_native (in_value : dict) : bool :=
  bool_decide (in_value !! "resolution" = Some (PyStr "native"))
  || bool_decide (in_value !! "res" = Some (PyStr "native")).

(** *** [_select_surfaces]

    GIFTI files are handed around as paths. *)

(** [os.path.basename] *)
Fixpoint has_slash (p : string) : bool :=
  match p with
  | EmptyString => false
  | String c p' => Ascii.eqb c "/"%char || has_slash p'
  end.

Fixpoint basename (p : string) : string :=
  match p with
  | EmptyString => EmptyString
  | String c p' =>
      if has_slash p' then basename p'
      else if Ascii.eqb c "/"%char then p' else String c p'
  end.

(** [sorted(l, key=key)]: a stable sort on the string order of the keys. *)
Fixpoint insert_by (key : string -> string) (x : string) (l : list string)
    : list string :=
  match l with
  | [] => [x]
  | y :: l' =>
      if String.leb (key x) (key y) then x :: l else y :: insert_by key x l'
  end.

Definition sorted_by (key : string -> string) (l : list string) : list string :=
  foldr (insert_by key) [] l.

(** The regular expression [(?:^|[^d])(?P<name>white|pial|midthickness|thickness)]. *)
Definition surface_names : list string :=
  ["white"; "pial"; "midthickness"; "thickness"].

(** The first alternative of the group [name] that matches at the head of [s]. *)
Definition name_at (s : string) : option string :=
  List.find (fun name => String.prefix name s) surface_names.

(** [s] follows the character [prev]: the name may start here unless [prev]
    is [d], otherwise further right. *)
Fixpoint search_after (prev : ascii) (s : string) : option string :=
  match (if Ascii.eqb prev "d"%char then None else name_at s) with
  | Some name => Some name
  | None =>
      match s with
      | EmptyString => None
      | String c s' => search_after c s'
      end
  end.

(** [find_name.search(s)], then [match.group('name')]. *)
Definition find_name (s : string) : option string :=
  match name_at s with
  | Some name => Some name
  | None =>
      match s with
      | EmptyString => None
      | String c s' => search_after c s'
      end
  end.

(** The outputs of the [select_surfaces] node. *)
Record selected : Type := {
  white : string;
  pial : string;
  midthickness : string;
  thickness : string;
  sphere_reg : string;
  template_sphere : string;
  template_roi : string
}.

Definition _select_surfaces (hemi : string)
    (surfaces morphometrics spherical_registrations template_spheres
       template_rois : list string) : result selected :=
  let idx := if decide (hemi = "L") then 0 else 1 in
  let named name :=
    List.filter
      (fun surface => bool_decide (find_name (basename surface) = Some name))
      (surfaces ++ morphometrics)%list in
  let pick surflist :=
    match sorted_by basename surflist !! idx with
    | Some x => Ok x
    | None => Raise IndexError
    end in
  w ← pick (named "white");
  p ← pick (named "pial");
  m ← pick (named "midthickness");
  t ← pick (named "thickness");
  s ← pick (sorted_by id spherical_registrations);
  ts ← pick (sorted_by id template_spheres);
  tr ← pick (sorted_by id template_rois);
  mret {| white := w; pial := p; midthickness := m; thickness := t;
          sphere_reg := s; template_sphere := ts; template_roi := tr |}.

(** ** Utility interfaces of the workflow engine *)

Module Nipype.

(** What one input [inK] of [niu.Merge] contributes to [out]: nothing when
    undefined, its elements when it is a list, itself otherwise. *)
Definition merge_in {A} (v : port A) : list A :=
  match v with
  | Undefined => []
  | Single a => [a]
  | Multi l => l
  end.

(** [niu.Merge(n)] with [in1 .. inn] bound to [ins] (default axis). *)
Definition Merge {A} (ins : list (port A)) : list A :=
  concat (merge_in <$> ins).

(** [niworkflows.interfaces.utility.KeySelect(fields=[f])]:
    [keys.index(key)] picks the entry of [f].  Duplicated keys, an absent
    key and a field whose length differs from that of [keys] are refused
    with a [ValueError]. *)
Definition KeySelect {A} (keys : list string) (key : string)
    (field : list A) : result A :=
  if bool_decide (NoDup keys) then
    match list_find (eq key) keys with
    | None => Raise ValueError
    | Some (index, _) =>
        if bool_decide (length field = length keys) then
          match field !! index with
          | Some x => Ok x
          | None => Raise IndexError
          end
        else Raise ValueError
    end
  else Raise ValueError.

(** Run every element of a list through a fallible node. *)
Fixpoint map_result {A B} (f : A -> result B) (l : list A) : result (list B) :=
  match l with
  | [] => Ok []
  | x :: l' => y ← f x; ys ← map_result f l'; mret (y :: ys)
  end.

End Nipype.
Export Nipype.

(** ** Fan-out over iterables and fan-in at a JoinNode *)

Module Engine.

(** Modelled from the spec: the scheduling of the workflow engine, which is
    not part of this module.  A node with [iterables] spawns one branch per
    element of the list; branch [i] is the one parameterised by element
    [i].  Branches complete in any order; a completed branch stores its
    outputs in slot [i] of the JoinNode named by [joinsource]. *)
Definition complete {P O} (run : P -> O) (iterable : list P)
    (slots : gmap nat O) (i : nat) : gmap nat O :=
  match iterable !! i with
  | Some p => <[i := run p]> slots
  | None => slots
  end.

(** Modelled from the spec: the slots of the JoinNode once the branches
    listed in [order] have completed, in that order. *)
Definition execute {P O} (run : P -> O) (iterable : list P)
    (order : list nat) : gmap nat O :=
  foldl (complete run iterable) ∅ order.

(** Modelled from the spec: the JoinNode is a barrier.  It fires once every
    slot is filled and assembles the slots in the order of the iterable;
    with a slot missing it does not fire. *)
Definition collate {O} (n : nat) (slots : gmap nat O) : option (list O) :=
  mapM (fun i => slots !! i) (seq 0 n).

(** Modelled from the spec: a fan-out over [iterable] joined again, the
    engine's part of every workflow with [iterables] and a JoinNode. *)
Definition fan_out_join {P O} (run : P -> O) (iterable : list P)
    (order : list nat) : option (list O) :=
  collate (length iterable) (execute run iterable order).

End Engine.

(** ** Images and transforms *)

(** A 3D image: the voxel values on its grid, in storage order. *)
Definition volume : Type := list Q.

(** A 4D series: its 3D volumes and the file the header is taken from. *)
Record bold4d : Type := { header_source : string; volumes : list volume }.

(** Voxel [j] of volume [k] of a list of volumes. *)
Definition voxel (vols : list volume) (k j : nat) : option Q :=
  vol ← vols !! k; vol !! j.

(** Transforms are handed around as files. *)
Definition xfm : Type := string.

(** [antsApplyTransforms] through its two wrappers. *)
Class ANTs : Type := {
  (** [ApplyTransforms(interpolation)]: input_image, reference_image, transforms *)
  ApplyTransforms : string -> volume -> volume -> list xfm -> volume;
  (** [MultiApplyTransforms(interpolation, float, copy_dtype)] *)
  MultiApplyTransforms :
    string -> bool -> bool -> list volume -> volume -> list xfm -> list volume
}.

(** ** fslmaths *)

Module FSL.
Local Open Scope Q_scope.

(** The parts of FSL that are numerical kernels or reductions. *)
Class Kernels : Type := {
  smooth : Q -> volume -> volume;      (* -s sigma *)
  dilD : volume -> volume;              (* -dilD *)
  stat_M : volume -> Q;                 (* fslstats -M *)
  stat_S : volume -> Q;                 (* fslstats -S *)
  Tmean : bold4d -> volume;             (* -Tmean *)
  Tstd : bold4d -> volume               (* -Tstd *)
}.

(** The voxelwise operators of [fslmaths]: [-bin] is 1 where the image is
    above zero and 0 elsewhere; [-thr t] zeroes what is below [t]; [-div]
    divides and writes 0 where the divisor is 0; [-mas] keeps the image
    where the mask is above zero. *)
Definition bin (x : Q) : Q := if Qlt_le_dec 0 x then 1 else 0.
Definition thr (t x : Q) : Q := if Qlt_le_dec x t then 0 else x.
Definition div (x y : Q) : Q := if Qeq_dec y 0 then 0 else x / y.
Definition mas (x m : Q) : Q := if Qlt_le_dec 0 m then x else 0.

Inductive op : Type :=
| Bin
| Thr (t : Q)
| Sub (v : volume)
| MulK (k : Q)
| DivV (v : volume)
| DivK (k : Q)
| Mas (v : volume)
| Smooth (sigma : Q)
| DilD.

(** An operator between two images needs them on one grid. *)
Definition pointwise (f : Q -> Q -> Q) (a b : volume) : result volume :=
  if decide (length a = length b) then Ok (zip_with f a b)
  else Raise RuntimeError.

Definition step `{Kernels} (cur : volume) (o : op) : result volume :=
  match o with
  | Bin => Ok (bin <$> cur)
  | Thr t => Ok (thr t <$> cur)
  | Sub v => pointwise Qminus cur v
  | MulK k => Ok ((fun x => x * k) <$> cur)
  | DivV v => pointwise div cur v
  | DivK k => Ok ((fun x => div x k) <$> cur)
  | Mas v => pointwise mas cur v
  | Smooth sigma => Ok (smooth sigma cur)
  | DilD => Ok (dilD cur)
  end.

(** [fslmaths in_file op1 op2 ... out_file] *)
Fixpoint fslmaths `{Kernels} (in_file : volume) (ops : list op) : result volume :=
  match ops with
  | [] => Ok in_file
  | o :: ops' => cur ← step in_file o; fslmaths cur ops'
  end.

(** An [op_string] whose [%s] are filled from [operand_files] in order. *)
Inductive token : Type :=
| Tok (o : op)
| Sub_s
| Div_s.

Fixpoint format (op_string : list token) (operand_files : list volume)
    : result (list op) :=
  match op_string, operand_files with
  | [], [] => Ok []
  | [], _ :: _ => Raise TypeError
  | Tok o :: r, _ => cons o <$> format r operand_files
  | Sub_s :: r, v :: vs => cons (Sub v) <$> format r vs
  | Div_s :: r, v :: vs => cons (DivV v) <$> format r vs
  | _ :: _, [] => Raise TypeError
  end.

(** [fsl.maths.MultiImageMaths(op_string)] *)
Definition MultiImageMaths `{Kernels} (op_string : list token)
    (in_file : volume) (operand_files : list volume) : result volume :=
  ops ← format op_string operand_files; fslmaths in_file ops.

End FSL.

(** ** init_goodvoxels_bold_mask_wf *)

Module GoodVoxels.
Import FSL.
Local Open Scope Q_scope.

Record inputs : Type := { anat_ribbon : volume; bold_file : bold4d }.

(** [in_stats[i]] *)
Definition item (in_stats : list Q) (i : nat) : result Q :=
  match in_stats !! i with
  | Some x => Ok x
  | None => Raise IndexError
  end.

Definition _calc_upper_thr (in_stats : list Q) : result Q :=
  a ← item in_stats 0%nat; b ← item in_stats 1%nat; mret (a + (b * (1 # 2))).

Definition _calc_lower_thr (in_stats : list Q) : result Q :=
  b ← item in_stats 1%nat; a ← item in_stats 0%nat; mret (b - (a * (1 # 2))).

(** The output of every node of the workflow. *)
Record nodes : Type := {
  ribbon_boldsrc_xfm : volume;
  stdev_volume : volume;
  mean_volume : volume;
  cov_volume : volume;
  cov_ribbon : volume;
  cov_ribbon_mean : Q;
  cov_ribbon_std : Q;
  cov_ribbon_norm : volume;
  smooth_norm : volume;
  merge_smooth_norm : list volume;
  cov_ribbon_norm_smooth : volume;
  cov_norm : volume;
  cov_norm_modulate : volume;
  cov_norm_modulate_ribbon : volume;
  mod_ribbon_mean : Q;
  mod_ribbon_std : Q;
  merge_mod_ribbon_stats : list Q;
  upper_thr_val : Q;
  lower_thr_val : Q;
  bin_mean_volume : volume;
  merge_goodvoxels_operands : list volume;
  goodvoxels_thr : volume;
  goodvoxels_mask : volume;
  goodvoxels_ribbon_mask : volume
}.

(** [fsl.maths.Threshold()] zeroes below [thresh].  The command line
    prints the threshold with ten decimals; the exact value is kept here. *)
Definition run_goodvoxels_thr `{Kernels} (thresh : Q) (in_file : volume)
    : result volume :=
  fslmaths in_file [Thr thresh].

Definition run_goodvoxels_mask `{Kernels} (in_file : volume)
    (operand_files : list volume) : result volume :=
  MultiImageMaths [Tok Bin; Sub_s; Tok (MulK (-1))] in_file operand_files.

(** The decision taken at one voxel by [goodvoxels_thr] followed by
    [goodvoxels_mask]: modulated COV [c], binarised mean [b]. *)
Definition keep (t c b : Q) : Q := (bin (thr t c) - b) * -1.

(** Node [cov_volume]: [fslmaths stdev -div mean]. *)
Definition run_cov_volume `{Kernels} (in_file operand_file : volume)
    : result volume :=
  fslmaths in_file [DivV operand_file].

(** The mask as a function of the threshold handed to [goodvoxels_thr]. *)
Definition goodvoxels_mask_from `{Kernels} (thresh : Q)
    (cov_norm_modulate bin_mean_volume : volume) : result volume :=
  gthr ← run_goodvoxels_thr thresh cov_norm_modulate;
  run_goodvoxels_mask gthr (Merge [Single bin_mean_volume; Undefined]).

Definition run `{Kernels} `{ANTs} (i : inputs) : result nodes :=
  let stdev := Tstd (bold_file i) in
  let mean := Tmean (bold_file i) in
  let ribbon := ApplyTransforms "MultiLabel" (anat_ribbon i) mean ["identity"] in
  cov ← run_cov_volume stdev mean;
  covr ← fslmaths cov [Mas ribbon];
  let covr_mean := stat_M covr in
  let covr_std := stat_S covr in
  covr_norm ← fslmaths covr [DivK covr_mean];
  sm_norm ← fslmaths covr_norm [Bin; Smooth 5];
  let m_sm_norm := Merge [Single sm_norm] in
  covr_norm_smooth ←
    MultiImageMaths [Tok (Smooth 5); Div_s; Tok DilD] covr_norm m_sm_norm;
  cnorm ← fslmaths cov [DivK covr_mean];
  cmod ← fslmaths cnorm [DivV covr_norm_smooth];
  cmodr ← fslmaths cmod [Mas ribbon];
  let mod_mean := stat_M cmodr in
  let mod_std := stat_S cmodr in
  let stats := Merge [Single mod_mean; Single mod_std] in
  upper ← _calc_upper_thr stats;
  lower ← _calc_lower_thr stats;
  binmean ← fslmaths mean [Bin];
  let operands := Merge [Single binmean; Undefined] in
  gthr ← run_goodvoxels_thr upper cmod;
  gmask ← run_goodvoxels_mask gthr operands;
  gribbon ← fslmaths gmask [Mas ribbon];
  mret {|
    ribbon_boldsrc_xfm := ribbon;
    stdev_volume := stdev;
    mean_volume := mean;
    cov_volume := cov;
    cov_ribbon := covr;
    cov_ribbon_mean := covr_mean;
    cov_ribbon_std := covr_std;
    cov_ribbon_norm := covr_norm;
    smooth_norm := sm_norm;
    merge_smooth_norm := m_sm_norm;
    cov_ribbon_norm_smooth := covr_norm_smooth;
    cov_norm := cnorm;
    cov_norm_modulate := cmod;
    cov_norm_modulate_ribbon := cmodr;
    mod_ribbon_mean := mod_mean;
    mod_ribbon_std := mod_std;
    merge_mod_ribbon_stats := stats;
    upper_thr_val := upper;
    lower_thr_val := lower;
    bin_mean_volume := binmean;
    merge_goodvoxels_operands := operands;
    goodvoxels_thr := gthr;
    goodvoxels_mask := gmask;
    goodvoxels_ribbon_mask := gribbon
  |}.

End GoodVoxels.

(** ** Collaborators from niworkflows and fmriprep.interfaces *)

Class Niworkflows : Type := {
  (** [niworkflows.utils.misc.get_template_specs]: the TemplateFlow lookup.
      It fills defaults into the dictionary it is handed (the first
      component is the dictionary as the call leaves it) and either returns
      the pair (path, common spec) or raises. *)
  get_template_specs : string -> dict -> dict * result (string * dict);
  (** [niworkflows.utils.spaces.format_reference] *)
  format_reference : string * dict -> string;
  (** [GenerateSamplingReference]: moving_image, fixed_image, keep_native *)
  GenerateSamplingReference : volume -> string -> bool -> volume;
  (** [init_bold_reference_wf(pre_mask=True)]: bold_file, bold_mask *)
  init_bold_reference_wf : bold4d -> volume -> volume
}.

(** [niworkflows.interfaces.nilearn.Merge]: the volumes concatenated along
    time under the header of [header_source]. *)
Definition NilearnMerge (compress : bool) (header : string)
    (in_files : list volume) : bold4d :=
  {| header_source := header; volumes := in_files |}.

Module Maths.
Local Open Scope Q_scope.

(** Modelled from the spec: [fmriprep.interfaces.maths.Clip], whose file is
    not among the sources; the workflows build it with [minimum=0] and no
    maximum.  Values below the minimum are replaced by the minimum, every
    other value is kept. *)
Definition clip (minimum v : Q) : Q :=
  if Qlt_le_dec v minimum then minimum else v.

(** Modelled from the spec: [Clip(minimum)] applied to an image file, the
    interface itself not being among the sources. *)
Definition Clip (minimum : Q) (in_file : volume) : volume :=
  clip minimum <$> in_file.

End Maths.

(** ** Template selection *)

(** [specs.pop("res", None) or specs.pop("resolution", None) or "native"]:
    the resolution asked for and the dictionary after the pops that were
    evaluated. *)
Definition pop_resolution (specs : dict) : pyval * dict :=
  let r1 := default PyNone (specs !! "res") in
  let specs1 := delete "res" specs in
  if truthy r1 then (r1, specs1)
  else
    let r2 := default PyNone (specs1 !! "resolution") in
    let specs2 := delete "resolution" specs1 in
    (py_or r2 (PyStr "native"), specs2).

Definition _select_template `{Niworkflows} (template : string * dict)
    : result string :=
  let '(template, specs) := template in
  let template := split_colon_0 template in
  let specs := <["suffix" := default (PyStr "T1w") (specs !! "suffix")]> specs in
  let '(res, specs) := pop_resolution specs in
  if decide (res <> PyStr "native") then
    let specs := <["resolution" := res]> specs in
    fst <$> (get_template_specs template specs).2
  else
    let specs := <["resolution" := PyInt 2]> specs in
    let '(specs, out) := get_template_specs template specs in
    match out with
    | Ok out => Ok out.1
    | Raise RuntimeError =>
        let specs := <["resolution" := PyInt 1]> specs in
        fst <$> (get_template_specs template specs).2
    | Raise e => Raise e
    end.

(** ** init_bold_std_trans_wf *)

Module StdTrans.
Import Maths.

(** [niworkflows.utils.spaces.Reference], as far as the workflow reads it. *)
Record Reference : Type := {
  fullname : string;
  spec : dict;
  standard : bool;
  dim : nat
}.

(** [[(s.fullname, s.spec) for s in spaces.references if s.standard and s.dim == 3]] *)
Definition std_vol_references (references : list Reference)
    : list (string * dict) :=
  (fun s => (fullname s, spec s))
    <$> filter (fun s => standard s = true /\ dim s = 3) references.

Record inputs : Type := {
  anat2std_xfm : list xfm;
  bold_aparc : volume;
  bold_aseg : volume;
  bold_mask : volume;
  bold_split : list volume;
  t2star : volume;
  fieldwarp : port xfm;
  hmc_xforms : port xfm;
  itk_bold_to_t1 : xfm + list xfm;
  name_source : string;
  templates : list string
}.

(** The output of the nodes of one branch. *)
Record nodes : Type := {
  iterablesource : string * dict;
  split_target : string * string * dict;
  select_std : xfm;
  select_tpl : string;
  gen_ref : volume;
  mask_merge_tfms : list xfm;
  mask_std_tfm : volume;
  merge_xforms : list xfm;
  bold_to_std_transform : list volume;
  threshold : list volume;
  merge : bold4d;
  gen_final_ref : volume;
  aseg_std_tfm : option volume;
  aparc_std_tfm : option volume;
  t2star_std_tfm : option volume
}.

(** The fields of [poutputnode] (one value each) and of the joining
    [outputnode] (one list each). *)
Record fields (F : Type -> Type) : Type := {
  bold_mask_std : F volume;
  bold_std : F bold4d;
  bold_std_ref : F volume;
  spatial_reference : F string;
  template : F string;
  bold_aseg_std : option (F volume);
  bold_aparc_std : option (F volume);
  t2star_std : option (F volume)
}.
Arguments bold_mask_std {F} _.
Arguments bold_std {F} _.
Arguments bold_std_ref {F} _.
Arguments spatial_reference {F} _.
Arguments template {F} _.
Arguments bold_aseg_std {F} _.
Arguments bold_aparc_std {F} _.
Arguments t2star_std {F} _.

Section Workflow.
Context `{ANTs} `{Niworkflows}.
Variables (freesurfer multiecho use_compression : bool).

Definition branch (i : inputs) (std_target : string * dict) : result nodes :=
  let '(space, tpl, spc) := _split_spec std_target in
  sel ← KeySelect (templates i) space (anat2std_xfm i);
  fixed ← _select_template std_target;
  moving ← _first (bold_split i);
  let ref := GenerateSamplingReference moving fixed (_is_native spc) in
  let mask_tfms := Merge [Single sel; Multi (_aslist (itk_bold_to_t1 i))] in
  let mask_std := ApplyTransforms "MultiLabel" (bold_mask i) ref mask_tfms in
  let xforms :=
    Merge [Single sel; Multi (_aslist (itk_bold_to_t1 i)); fieldwarp i;
           hmc_xforms i] in
  let resampled :=
    MultiApplyTransforms "LanczosWindowedSinc" true true (bold_split i) ref xforms in
  let clipped := Clip 0 <$> resampled in
  let merged := NilearnMerge use_compression (name_source i) clipped in
  mret {|
    iterablesource := std_target;
    split_target := (space, tpl, spc);
    select_std := sel;
    select_tpl := fixed;
    gen_ref := ref;
    mask_merge_tfms := mask_tfms;
    mask_std_tfm := mask_std;
    merge_xforms := xforms;
    bold_to_std_transform := resampled;
    threshold := clipped;
    merge := merged;
    gen_final_ref := init_bold_reference_wf merged mask_std;
    aseg_std_tfm :=
      if freesurfer
      then Some (ApplyTransforms "MultiLabel" (bold_aseg i) ref [sel])
      else None;
    aparc_std_tfm :=
      if freesurfer
      then Some (ApplyTransforms "MultiLabel" (bold_aparc i) ref [sel])
      else None;
    t2star_std_tfm :=
      if multiecho
      then Some (ApplyTransforms "LanczosWindowedSinc" (t2star i) ref [sel])
      else None
  |}.

Definition poutputnode (n : nodes) : fields (fun A => A) :=
  {| bold_mask_std := mask_std_tfm n;
     bold_std := merge n;
     bold_std_ref := gen_final_ref n;
     spatial_reference := format_reference (iterablesource n);
     template := (split_target n).1.1;
     bold_aseg_std := aseg_std_tfm n;
     bold_aparc_std := aparc_std_tfm n;
     t2star_std := t2star_std_tfm n |}.

(** The JoinNode [outputnode]: every field of [output_names] becomes the
    list of the branches' values. *)
Definition outputnode (ps : list (fields (fun A => A))) : fields list :=
  {| bold_mask_std := bold_mask_std <$> ps;
     bold_std := bold_std <$> ps;
     bold_std_ref := bold_std_ref <$> ps;
     spatial_reference := spatial_reference <$> ps;
     template := template <$> ps;
     bold_aseg_std := if freesurfer then Some (omap bold_aseg_std ps) else None;
     bold_aparc_std := if freesurfer then Some (omap bold_aparc_std ps) else None;
     t2star_std := if multiecho then Some (omap t2star_std ps) else None |}.

(** The workflow run on the requested references, its branches
    completing in [order].  [None]: the join never fires. *)
Definition run (references : list Reference) (i : inputs) (order : list nat)
    : option (result (fields list)) :=
  slots ← Engine.fan_out_join (branch i) (std_vol_references references) order;
  Some (ns ← map_result id slots; mret (outputnode (poutputnode <$> ns))).

End Workflow.

End StdTrans.

(** ** init_bold_preproc_trans_wf *)

Module PreprocTrans.
Import Maths.

Record inputs : Type := {
  name_source : string;
  bold_file : list volume;
  hmc_xforms : port xfm;
  fieldwarp : port xfm
}.

Record nodes : Type := {
  merge_xforms : list xfm;
  bold_transform : list volume;
  threshold : list volume;
  merge : bold4d
}.

(** Only [bold] is connected; [bold_ref] and [bold_ref_brain] stay undefined. *)
Record outputnode : Type := {
  bold : bold4d;
  bold_ref : option volume;
  bold_ref_brain : option volume
}.

Record workflow : Type := {
  __desc__ : string;
  run : inputs -> result nodes
}.

Definition desc_fieldwarp : string :=
  "a single, composite transform to correct for head-motion and
susceptibility distortions".

Definition desc_hmc_only : string :=
  "the transforms to correct for head-motion".

Definition init_bold_preproc_trans_wf `{ANTs} (use_compression : bool)
    (use_fieldwarp : bool) (interpolation : string) : workflow :=
  {| __desc__ :=
       "The BOLD time-series (including slice-timing correction when applied)
were resampled onto their original, native space by applying
" ++ (if use_fieldwarp then desc_fieldwarp else desc_hmc_only) ++ ".
These resampled BOLD time-series will be referred to as *preprocessed
BOLD in original space*, or just *preprocessed BOLD*.
";
     run := fun i =>
       let xforms := Merge [fieldwarp i; hmc_xforms i] in
       reference ← _first (bold_file i);
       let resampled :=
         MultiApplyTransforms interpolation false true (bold_file i) reference xforms in
       let clipped := Clip 0 <$> resampled in
       mret {| merge_xforms := xforms;
               bold_transform := resampled;
               threshold := clipped;
               merge := NilearnMerge use_compression (name_source i) clipped |}
  |}.

Definition outputs (n : nodes) : outputnode :=
  {| bold := merge n; bold_ref := None; bold_ref_brain := None |}.

End PreprocTrans.

(** ** init_bold_fsLR_resampling_wf *)

Definition gifti : Type := string.

(** Connectome Workbench and the surface helpers, over GIFTI files. *)
Class Surfaces : Type := {
  cifti : Type;
  (** [CreateROI]: hemisphere, thickness_file *)
  CreateROI : string -> gifti -> gifti;
  (** [MetricFillHoles], [MetricRemoveIslands]: surface_file, metric_file *)
  MetricFillHoles : gifti -> gifti -> gifti;
  MetricRemoveIslands : gifti -> gifti -> gifti;
  (** [SurfaceResample(method)]: surface_in, current_sphere, new_sphere *)
  SurfaceResample : string -> gifti -> gifti -> gifti -> gifti;
  (** [VolumeToSurfaceMapping(method)]: volume_file, surface_file,
      inner_surface, outer_surface, volume_roi *)
  VolumeToSurfaceMapping :
    string -> bold4d -> gifti -> gifti -> gifti -> option volume -> gifti;
  (** [MetricDilate(distance, nearest)]: surf_file, in_file *)
  MetricDilate : Z -> bool -> gifti -> gifti -> gifti;
  (** [MetricMask]: in_file, mask *)
  MetricMask : gifti -> gifti -> gifti;
  (** [MetricResample(method, area_surfs)]: in_file, current_sphere,
      new_sphere, current_area, new_area, roi_metric *)
  MetricResample :
    string -> bool -> gifti -> gifti -> gifti -> gifti -> gifti -> gifti -> gifti;
  (** [tf.get(template='fsLR', density=..., suffix='sphere', ...)] *)
  tf_get_fsLR_sphere : string -> list gifti;
  (** [smriprep_data.load_resource('atlases')], a directory *)
  atlases : string;
  (** [GenerateCifti(TR, grayordinates)]: surface_bolds, bold_file *)
  GenerateCifti : Q -> string -> list gifti -> bold4d -> cifti * string
}.

Module FsLR.

Record inputs : Type := {
  bold_file : bold4d;
  surfaces : list gifti;
  morphometrics : list gifti;
  sphere_reg_fsLR : list gifti;
  anat_ribbon : volume
}.

(** The output of the nodes of one hemisphere. *)
Record nodes : Type := {
  select_surfaces : selected;
  initial_roi : gifti;
  fill_holes : gifti;
  native_roi : gifti;
  downsampled_midthickness : gifti;
  volume_to_surface : gifti;
  metric_dilate : gifti;
  mask_native : gifti;
  resample_to_fsLR : gifti;
  mask_fsLR : gifti
}.

Record outputnode : Type := {
  bold_fsLR : list gifti;
  goodvoxels_mask : option volume
}.

Section Workflow.
Context `{Surfaces} `{FSL.Kernels} `{ANTs}.

Variable grayord_density : string.
Variable estimate_goodvoxels : bool.

Definition fslr_density : string :=
  if decide (grayord_density = "91k") then "32k" else "59k".

(** [select_surfaces.inputs.template_rois] *)
Definition template_rois : list gifti :=
  [atlases ++ "/L.atlasroi.32k_fs_LR.shape.gii";
   atlases ++ "/R.atlasroi.32k_fs_LR.shape.gii"].

Definition hemisphere (i : inputs) (volume_roi : option volume)
    (hemi : string) : result nodes :=
  s ← _select_surfaces hemi (surfaces i) (morphometrics i)
        (sphere_reg_fsLR i) (tf_get_fsLR_sphere fslr_density) template_rois;
  let roi0 := CreateROI hemi (thickness s) in
  let filled := MetricFillHoles (midthickness s) roi0 in
  let roi := MetricRemoveIslands (midthickness s) filled in
  let down :=
    SurfaceResample "BARYCENTRIC" (midthickness s) (sphere_reg s)
      (template_sphere s) in
  let projected :=
    VolumeToSurfaceMapping "ribbon-constrained" (bold_file i)
      (midthickness s) (white s) (pial s) volume_roi in
  let dilated := MetricDilate 10 true (midthickness s) projected in
  let masked := MetricMask dilated roi in
  let resampled :=
    MetricResample "ADAP_BARY_AREA" true masked (sphere_reg s)
      (template_sphere s) (midthickness s) down roi in
  mret {| select_surfaces := s;
          initial_roi := roi0;
          fill_holes := filled;
          native_roi := roi;
          downsampled_midthickness := down;
          volume_to_surface := projected;
          metric_dilate := dilated;
          mask_native := masked;
          resample_to_fsLR := resampled;
          mask_fsLR := MetricMask resampled (template_roi s) |}.

(** The workflow, its two hemisphere branches completing in [order]. *)
Definition run (i : inputs) (order : list nat) : option (result outputnode) :=
  let good :=
    if estimate_goodvoxels
    then Some
           (GoodVoxels.goodvoxels_mask
              <$> GoodVoxels.run
                    {| GoodVoxels.anat_ribbon := anat_ribbon i;
                       GoodVoxels.bold_file := bold_file i |})
    else None in
  match good with
  | Some (Raise e) => Some (Raise e)
  | Some (Ok m) =>
      slots ← Engine.fan_out_join (hemisphere i (Some m)) ["L"; "R"] order;
      Some (hs ← map_result id slots;
            mret {| bold_fsLR := mask_fsLR <$> hs; goodvoxels_mask := Some m |})
  | None =>
      slots ← Engine.fan_out_join (hemisphere i None) ["L"; "R"] order;
      Some (hs ← map_result id slots;
            mret {| bold_fsLR := mask_fsLR <$> hs; goodvoxels_mask := None |})
  end.

End Workflow.

End FsLR.

(** ** init_bold_grayords_wf *)

Module Grayords.

Record inputs : Type := {
  bold_std : list bold4d;
  bold_fsLR : list gifti;
  spatial_reference : list string
}.

Record nodes `{Surfaces} : Type := {
  select_std : bold4d;
  gen_cifti : cifti * string
}.

Record outputnode `{Surfaces} : Type := {
  cifti_bold : cifti;
  cifti_metadata : string
}.

Definition mni_density (grayord_density : string) : string :=
  if decide (grayord_density = "91k") then "2" else "1".

(** [select_std.inputs.key] *)
Definition select_std_key (grayord_density : string) : string :=
  "MNI152NLin6Asym_res-" ++ mni_density grayord_density.

Definition run `{Surfaces} (grayord_density : string) (repetition_time : Q)
    (i : inputs) : result nodes :=
  sel ← KeySelect (spatial_reference i) (select_std_key grayord_density)
        (bold_std i);
  mret {| select_std := sel;
          gen_cifti :=
            GenerateCifti repetition_time grayord_density (bold_fsLR i) sel |}.

Definition outputs `{Surfaces} (n : nodes) : outputnode :=
  {| cifti_bold := (gen_cifti n).1; cifti_metadata := (gen_cifti n).2 |}.

End Grayords.

(** ** A small concrete instance of the collaborators

    Identity resampling, a two-template TemplateFlow and symbolic surface
    files, used to run the workflows on concrete inputs. *)

Module Sample.
Local Open Scope Q_scope.

#[export] Instance ants : ANTs := {|
  ApplyTransforms := fun _ input_image _ _ => input_image;
  MultiApplyTransforms := fun _ _ _ input_image _ _ => input_image
|}.

(** Resolutions on offer: 1 and 2, except for "MNIInfant" (1 only). *)
Definition available (template : string) : list Z :=
  if decide (template = "MNIInfant") then [1%Z] else [1%Z; 2%Z].

Definition path (template : string) (r : Z) : string :=
  "tpl-" ++ template ++ (if decide (r = 1%Z) then "_res-01_T1w.nii.gz"
                         else "_res-02_T1w.nii.gz").

Definition lookup (template : string) (specs : dict)
    : dict * result (string * dict) :=
  (<["atlas" := PyNone]> (<["desc" := PyNone]> specs),
   match specs !! "resolution" with
   | Some (PyInt r) =>
       if decide (r ∈ available template)
       then Ok (path template r, {["resolution" := PyInt r]})
       else Raise RuntimeError
   | _ => Raise RuntimeError
   end).

#[export] Instance niworkflows : Niworkflows := {|
  get_template_specs := lookup;
  format_reference := fun t => t.1;
  GenerateSamplingReference := fun moving _ _ => moving;
  init_bold_reference_wf := fun _ bold_mask => bold_mask
|}.

Definition qsum (l : list Q) : Q := foldr Qplus 0 l.

(** Mean over the non-zero voxels. *)
Definition nonzero_mean (v : volume) : Q :=
  let nz := filter (fun x => Qeq_bool x 0 = false) v in
  FSL.div (qsum nz) (inject_Z (Z.of_nat (length nz))).

#[export] Instance kernels : FSL.Kernels := {|
  FSL.smooth := fun _ v => v;
  FSL.dilD := fun v => v;
  FSL.stat_M := nonzero_mean;
  FSL.stat_S := fun v => nonzero_mean (Qabs <$> v) - Qabs (nonzero_mean v);
  FSL.Tmean := fun b => default [] (head (volumes b));
  FSL.Tstd := fun b => default [] (last (volumes b))
|}.

#[export] Instance surfaces : Surfaces := {|
  cifti := string;
  CreateROI := fun hemi t => "roi(" ++ hemi ++ "," ++ t ++ ")";
  MetricFillHoles := fun s m => "fill(" ++ m ++ ")";
  MetricRemoveIslands := fun s m => "islands(" ++ m ++ ")";
  SurfaceResample := fun _ s _ _ => "down(" ++ s ++ ")";
  VolumeToSurfaceMapping := fun _ _ s _ _ _ => "project(" ++ s ++ ")";
  MetricDilate := fun _ _ _ m => "dilate(" ++ m ++ ")";
  MetricMask := fun m roi => "mask(" ++ m ++ "," ++ roi ++ ")";
  MetricResample := fun _ _ m _ _ _ _ _ => "resample(" ++ m ++ ")";
  tf_get_fsLR_sphere := fun d =>
    ["/tf/tpl-fsLR_hemi-R_den-" ++ d ++ "_sphere.surf.gii";
     "/tf/tpl-fsLR_hemi-L_den-" ++ d ++ "_sphere.surf.gii"];
  atlases := "/smriprep/data/atlases";
  GenerateCifti := fun _ d _ b => ("cifti-" ++ d, header_source b)
|}.

Definition fsLR_inputs : FsLR.inputs :=
  {| FsLR.bold_file :=
       {| header_source := "sub-01_bold.nii.gz"; volumes := [[1; 2]] |};
     FsLR.surfaces :=
       ["/anat/sub-01_hemi-R_white.surf.gii"; "/anat/sub-01_hemi-L_white.surf.gii";
        "/anat/sub-01_hemi-L_pial.surf.gii"; "/anat/sub-01_hemi-R_pial.surf.gii";
        "/anat/sub-01_hemi-L_midthickness.surf.gii";
        "/anat/sub-01_hemi-R_midthickness.surf.gii"];
     FsLR.morphometrics :=
       ["/anat/sub-01_hemi-L_thickness.shape.gii";
        "/anat/sub-01_hemi-R_thickness.shape.gii";
        "/anat/sub-01_hemi-L_curv.shape.gii"];
     FsLR.sphere_reg_fsLR :=
       ["/anat/sub-01_hemi-L_space-fsLR_desc-reg_sphere.surf.gii";
        "/anat/sub-01_hemi-R_space-fsLR_desc-reg_sphere.surf.gii"];
     FsLR.anat_ribbon := [1; 1] |}.

Definition std_inputs : StdTrans.inputs :=
  {| StdTrans.anat2std_xfm := ["anat2lin.h5"; "anat2nlin6.h5"];
     StdTrans.bold_aparc := [0; 1];
     StdTrans.bold_aseg := [0; 2];
     StdTrans.bold_mask := [1; 1];
     StdTrans.bold_split := [[-3 # 10; 5]; [-1 # 10000; 0]];
     StdTrans.t2star := [3; 4];
     StdTrans.fieldwarp := Single "fieldwarp.h5";
     StdTrans.hmc_xforms := Multi ["hmc0.txt"; "hmc1.txt"];
     StdTrans.itk_bold_to_t1 := inl "bold2t1.txt";
     StdTrans.name_source := "sub-01_bold.nii.gz";
     StdTrans.templates := ["MNI152Lin"; "MNI152NLin6Asym"] |}.

Definition references : list StdTrans.Reference :=
  [ {| StdTrans.fullname := "MNI152Lin"; StdTrans.spec := ∅;
       StdTrans.standard := true; StdTrans.dim := 3 |};
    {| StdTrans.fullname := "fsaverage"; StdTrans.spec := ∅;
       StdTrans.standard := true; StdTrans.dim := 2 |};
    {| StdTrans.fullname := "MNI152NLin6Asym";
       StdTrans.spec := {["res" := PyInt 2]};
       StdTrans.standard := true; StdTrans.dim := 3 |} ].

Definition native_inputs : PreprocTrans.inputs :=
  {| PreprocTrans.name_source := "sub-01_bold.nii.gz";
     PreprocTrans.bold_file := [[-3 # 10; -1 # 10000]; [0; 5]];
     PreprocTrans.hmc_xforms := Multi ["hmc0.txt"; "hmc1.txt"];
     PreprocTrans.fieldwarp := Undefined |}.

Definition goodvoxels_inputs : GoodVoxels.inputs :=
  {| GoodVoxels.anat_ribbon := [1; 1; 0; 1];
     GoodVoxels.bold_file :=
       {| header_source := "sub-01_bold.nii.gz";
          volumes := [[100; 50; 0; 80]; [2; 40; 0; 4]] |} |}.

(** The branch of the standard-space workflow for MNI152NLin6Asym. *)
Definition sample_branch : result StdTrans.nodes :=
  StdTrans.branch false true true std_inputs
    ("MNI152NLin6Asym", {["res" := PyInt 2]}).

Definition grayords_inputs : Grayords.inputs :=
  {| Grayords.bold_std :=
       [ {| header_source := "lin"; volumes := [] |};
         {| header_source := "nlin6"; volumes := [] |} ];
     Grayords.bold_fsLR := ["L.func.gii"; "R.func.gii"];
     Grayords.spatial_reference := ["MNI152Lin"; "MNI152NLin6Asym_res-2"] |}.

End Sample.

(** ** More of the module: surface sampling and the pieces of the helpers *)

(** The two local steps of [_select_surfaces]: the files whose base name
    carries [name], and entry [idx] of a list sorted by base name. *)
Definition named_surfaces (name : string) (surfaces morphometrics : list string)
    : list string :=
  List.filter
    (fun surface => bool_decide (find_name (basename surface) = Some name))
    (surfaces ++ morphometrics)%list.

Definition pick (idx : nat) (surflist : list string) : result string :=
  match sorted_by basename surflist !! idx with
  | Some x => Ok x
  | None => Raise IndexError
  end.

(** Whether a name carries a colon, the separator of cohort modifiers. *)
Fixpoint has_colon (s : string) : bool :=
  match s with
  | EmptyString => false
  | String c s' => Ascii.eqb c ":"%char || has_colon s'
  end.

(** Neighbours of a list are in the order of their keys. *)
Definition key_ordered (key : string -> string) (l : list string) : Prop :=
  forall i x y, l !! i = Some x -> l !! S i = Some y ->
                String.leb (key x) (key y) = true.

(** An optional output of a joining node: the list [expected] when the
    flag that adds it to [output_names] is set, absent otherwise. *)
Definition joined_optional {A} (flag : bool) (joined : option (list A))
    (expected : list A) : Prop :=
  if flag then joined = Some expected else joined = None.

(** [idx = 0 if hemi == "L" else 1] *)
Definition hemi_index (hemi : string) : nat :=
  if decide (hemi = "L") then 0 else 1.

(** [s.endswith(suffix)] *)
Fixpoint endswith (s suffix : string) : bool :=
  if String.eqb s suffix then true
  else
    match s with
    | EmptyString => false
    | String _ s' => endswith s' suffix
    end.

(** nitransforms and the FreeSurfer interfaces used by [init_bold_surf_wf]. *)
Class FreeSurfer : Type := {
  (** the working directory of the [itk2lta] node *)
  cwd : string;
  (** [nt.linear.load(in_file, fmt=fmt, reference=reference)
       .to_filename(out_file, moving=moving, fmt="fs")]:
      in_file, fmt, reference, moving; what is written to out_file *)
  nt_linear_to_lta : string -> string -> string -> string -> string;
  (** [FreeSurferSource]: subject_id, subjects_dir; its output T1 *)
  FreeSurferSource_T1 : string -> string -> string;
  (** [niu.Rename(format_string="%(subject)s", keep_ext=True)]: in_file, subject *)
  Rename : string -> string -> string;
  (** [fs.SampleToSurface(...)]: hemi, subjects_dir, subject_id, source_file,
      reg_file, target_subject *)
  SampleToSurface :
    string -> string -> string -> string -> string -> string -> gifti;
  (** [MedialNaNs]: subjects_dir, in_file *)
  MedialNaNs : string -> gifti -> gifti;
  (** [GiftiSetAnatomicalStructure]: in_file *)
  GiftiSetAnatomicalStructure : gifti -> gifti
}.

(** [_itk2lta]: the path returned and the transform file written there. *)
Definition _itk2lta `{FreeSurfer} (in_file src_file dst_file : string)
    : string * string :=
  let out_file := cwd ++ "/out.lta" in
  (out_file,
   nt_linear_to_lta in_file (if endswith in_file ".lta" then "fs" else "itk")
     src_file dst_file).

(** ** init_bold_surf_wf *)

Module Surf.

Record inputs : Type := {
  source_file : string;
  subject_id : string;
  subjects_dir : string;
  t1w2fsnative_xfm : string
}.

(** [select_target] *)
Definition select_target (subject_id space : string) : string :=
  if decide (space = "fsnative") then subject_id else space.

(** The output of the nodes of one branch; [medial_nans] is part of the
    graph only with [medial_surface_nan]. *)
Record nodes : Type := {
  get_fsnative : string;
  itk2lta : string * string;
  targets : string;
  rename_src : string;
  sampler : list gifti;
  medial_nans : option (list gifti);
  update_metadata : list gifti
}.

Record outputnode : Type := {
  surfaces : list (list gifti);
  target : list string
}.

(** [workflow.__desc__] *)
Definition desc (surface_spaces : list string) : string :=
  "The BOLD time-series were resampled onto the following surfaces
(FreeSurfer reconstruction nomenclature):
" ++ String.concat ", " ((fun s => "*" ++ s ++ "*") <$> surface_spaces) ++ ".
".

Section Workflow.
Context `{FreeSurfer}.
Variable medial_surface_nan : bool.

(** One branch of the fan-out over [surface_spaces].  [sampler] is handed
    the path [itk2lta] returns; what it reads there is the file [itk2lta]
    wrote, the second component of [reg]. *)
Definition branch (i : inputs) (space : string) : nodes :=
  let t1 := FreeSurferSource_T1 (subject_id i) (subjects_dir i) in
  let reg := _itk2lta (t1w2fsnative_xfm i) (source_file i) t1 in
  let tgt := select_target (subject_id i) space in
  let src := Rename (source_file i) space in
  let sampled :=
    (fun hemi =>
       SampleToSurface hemi (subjects_dir i) (subject_id i) src reg.2 tgt)
      <$> ["lh"; "rh"] in
  let nans :=
    if medial_surface_nan
    then Some (MedialNaNs (subjects_dir i) <$> sampled)
    else None in
  {| get_fsnative := t1;
     itk2lta := reg;
     targets := tgt;
     rename_src := src;
     sampler := sampled;
     medial_nans := nans;
     update_metadata :=
       GiftiSetAnatomicalStructure <$> default sampled nans |}.

(** The workflow on [surface_spaces], its branches completing in [order]. *)
Definition run (surface_spaces : list string) (i : inputs) (order : list nat)
    : option outputnode :=
  slots ← Engine.fan_out_join (fun space => (space, branch i space))
            surface_spaces order;
  Some {| surfaces := (fun b => update_metadata b.2) <$> slots;
          target := fst <$> slots |}.

End Workflow.

End Surf.

(** A concrete FreeSurfer for running the surface workflow. *)
Module SampleSurf.

#[export] Instance freesurfer : FreeSurfer := {|
  cwd := "/work/itk2lta";
  nt_linear_to_lta := fun in_file fmt reference moving =>
    "lta(" ++ fmt ++ ":" ++ in_file ++ ")";
  FreeSurferSource_T1 := fun subject_id subjects_dir =>
    subjects_dir ++ "/" ++ subject_id ++ "/mri/T1.mgz";
  Rename := fun in_file subject => subject ++ ".nii.gz";
  SampleToSurface := fun hemi _ _ source_file reg_file target_subject =>
    hemi ++ "." ++ source_file ++ "@" ++ target_subject;
  MedialNaNs := fun _ in_file => "nan(" ++ in_file ++ ")";
  GiftiSetAnatomicalStructure := fun in_file => in_file
|}.

Definition surf_inputs : Surf.inputs :=
  {| Surf.source_file := "/work/bold_t1.nii.gz";
     Surf.subject_id := "sub-01";
     Surf.subjects_dir := "/fs";
     Surf.t1w2fsnative_xfm := "/anat/t1w2fsnative.txt" |}.

End SampleSurf.

(** * Properties *)

(** ** The result monad *)

Lemma bind_Ok {A B} (m : result A) (f : A -> result B) (b : B) :
  m ≫= f = Ok b -> exists a, m = Ok a /\ f a = Ok b.
Proof. destruct m as [a|e]; [eauto | discriminate]. Qed.

Lemma fmap_Ok {A B} (f : A -> B) (m : result A) (b : B) :
  f <$> m = Ok b -> exists a, m = Ok a /\ b = f a.
Proof. destruct m as [a|e]; [|discriminate]. intros [= <-]. eauto. Qed.

Lemma map_result_id_Ok {A} (rs : list (result A)) :
  Forall is_Ok rs -> exists xs, map_result id rs = Ok xs /\ rs = Ok <$> xs.
Proof.
  induction 1 as [|r rs [x ->] _ (xs & IH & ->)]; [by exists []|].
  exists (x :: xs). by cbn; rewrite IH.
Qed.

Ltac bind_inv H :=
  repeat match type of H with
         | mbind _ ?m = Ok _ =>
             let a := fresh "a" in
             let E := fresh "E" in
             apply bind_Ok in H as (a & E & H)
         end.

(** ** The engine: fan-out and join *)

Section EngineFacts.
Context {P O : Type} (run : P -> O) (iterable : list P).

Lemma complete_lookup (slots : gmap nat O) (j i : nat) :
  Engine.complete run iterable slots j !! i =
    match iterable !! i with
    | Some p => if decide (i = j) then Some (run p) else slots !! i
    | None => slots !! i
    end.
Proof.
  unfold Engine.complete. destruct (decide (i = j)) as [->|Hne].
  - destruct (iterable !! j); [apply lookup_insert_eq|done].
  - destruct (iterable !! j), (iterable !! i);
      by rewrite ?lookup_insert_ne.
Qed.

(** What a slot holds once the branches listed in [order] have completed. *)
Lemma execute_lookup (order : list nat) (slots : gmap nat O) (i : nat) :
  foldl (Engine.complete run iterable) slots order !! i =
    if decide (i ∈ order)
    then match iterable !! i with
         | Some p => Some (run p)
         | None => slots !! i
         end
    else slots !! i.
Proof.
  revert slots. induction order as [|j order IH]; intros slots; cbn.
  - by rewrite decide_False by (by intros ?%elem_of_nil).
  - rewrite IH, complete_lookup.
    destruct (decide (i ∈ order)) as [Hin|Hnin].
    + rewrite decide_True by (by right).
      destruct (iterable !! i); done.
    + destruct (decide (i = j)) as [->|Hne].
      * rewrite decide_True by left. by destruct (iterable !! j).
      * rewrite decide_False by (by intros [?|?]%elem_of_cons).
        by destruct (iterable !! i).
Qed.

(** Whatever the order in which the branches complete, the join delivers
    the branch outputs in the order of the iterable. *)
Lemma fan_out_join_perm (order : list nat) :
  order ≡ₚ seq 0 (length iterable) ->
  Engine.fan_out_join run iterable order = Some (run <$> iterable).
Proof.
  intros Hperm. unfold Engine.fan_out_join, Engine.collate, Engine.execute.
  apply mapM_Some. apply Forall2_same_length_lookup. split.
  - by rewrite length_fmap, length_seq.
  - intros i j o [-> Hi]%lookup_seq Ho. cbn.
    rewrite execute_lookup, decide_True.
    + rewrite list_lookup_fmap in Ho.
      destruct (iterable !! i); [done|discriminate].
    + rewrite Hperm. apply elem_of_seq. lia.
Qed.

(** A branch that never completes keeps the join from firing. *)
Lemma fan_out_join_missing (order : list nat) (i : nat) :
  i < length iterable -> i ∉ order ->
  Engine.fan_out_join run iterable order = None.
Proof.
  intros Hi Hnin. unfold Engine.fan_out_join, Engine.collate, Engine.execute.
  destruct (mapM _ _) as [os|] eqn:E; [|done]. exfalso.
  apply mapM_Some in E.
  assert (seq 0 (length iterable) !! i = Some i) as Hs
    by (by rewrite lookup_seq_lt by done).
  destruct (Forall2_lookup_l _ _ _ _ _ E Hs) as (o & _ & Ho).
  cbn in Ho. by rewrite execute_lookup, decide_False, lookup_empty in Ho.
Qed.

End EngineFacts.

(** ** KeySelect *)

Section KeySelectFacts.
Context {A : Type}.

Lemma KeySelect_Ok (keys : list string) (key : string) (field : list A) (x : A) :
  KeySelect keys key field = Ok x ->
  exists k, keys !! k = Some key /\ field !! k = Some x
            /\ forall k', keys !! k' = Some key -> k' = k.
Proof.
  unfold KeySelect. case_bool_decide as Hnd; [|discriminate].
  destruct (list_find _ _) as [[k y]|] eqn:Ef; [|discriminate].
  apply list_find_Some in Ef as (Hk & <- & _).
  case_bool_decide; [|discriminate].
  destruct (field !! k) as [z|] eqn:Ez; [|discriminate].
  intros [= ->]. exists k. repeat split; [done..|].
  intros k' Hk'. by eapply NoDup_lookup.
Qed.

Lemma KeySelect_missing (keys : list string) (key : string) (field : list A) :
  key ∉ keys -> KeySelect keys key field = Raise ValueError.
Proof.
  intros Hnin. unfold KeySelect. case_bool_decide; [|done].
  destruct (list_find _ _) as [[k y]|] eqn:Ef; [|done].
  apply list_find_Some in Ef as (Hk & <- & _).
  destruct Hnin. by eapply list_elem_of_lookup_2.
Qed.

End KeySelectFacts.

(** ** Standard-space resampling *)

Section StdTransFacts.
Import StdTrans Maths.
Context `{ANTs} `{Niworkflows}.
Variables (freesurfer multiecho use_compression : bool).

Local Abbreviation branch := (StdTrans.branch freesurfer multiecho use_compression).
Local Abbreviation run := (StdTrans.run freesurfer multiecho use_compression).

(** A branch that succeeds has run its three fallible nodes; every other
    node output is determined by theirs. *)
Lemma branch_inv (i : inputs) (t : string * dict) (n : nodes) :
  branch i t = Ok n ->
  KeySelect (templates i) t.1 (anat2std_xfm i) = Ok (select_std n)
  /\ _select_template t = Ok (select_tpl n)
  /\ (exists moving, _first (bold_split i) = Ok moving
      /\ gen_ref n = GenerateSamplingReference moving (select_tpl n) (_is_native t.2))
  /\ iterablesource n = t
  /\ split_target n = (t.1, split_colon_0 t.1, t.2)
  /\ mask_merge_tfms n = Merge [Single (select_std n); Multi (_aslist (itk_bold_to_t1 i))]
  /\ mask_std_tfm n = ApplyTransforms "MultiLabel" (bold_mask i) (gen_ref n) (mask_merge_tfms n)
  /\ merge_xforms n =
       Merge [Single (select_std n); Multi (_aslist (itk_bold_to_t1 i));
              fieldwarp i; hmc_xforms i]
  /\ bold_to_std_transform n =
       MultiApplyTransforms "LanczosWindowedSinc" true true (bold_split i)
         (gen_ref n) (merge_xforms n)
  /\ threshold n = Clip 0 <$> bold_to_std_transform n
  /\ merge n = NilearnMerge use_compression (name_source i) (threshold n)
  /\ gen_final_ref n = init_bold_reference_wf (merge n) (mask_std_tfm n).
Proof.
  destruct t as [space spc]. unfold StdTrans.branch, _split_spec. intros Hb.
  bind_inv Hb. injection Hb as <-. cbn. repeat split; eauto.
Qed.

Lemma run_perm (references : list Reference) (i : inputs) (order : list nat) :
  order ≡ₚ seq 0 (length (std_vol_references references)) ->
  run references i order =
    Some (ns ← map_result id (branch i <$> std_vol_references references);
          mret (outputnode freesurfer multiecho (poutputnode <$> ns))).
Proof.
  intros Hperm. unfold StdTrans.run.
  by rewrite (fan_out_join_perm _ _ _ Hperm).
Qed.

(** C1. For the N standard volumetric references requested, and whatever
    the order in which the N branches complete, every joined output list
    (bold_std, bold_std_ref, bold_mask_std, spatial_reference, template)
    has length N, and its k-th element is the output of the branch run
    for the k-th requested reference; any other completion order gives the
    same lists. *)
Theorem join_correspondence (references : list Reference) (i : inputs)
    (order : list nat) :
  let targets := std_vol_references references in
  order ≡ₚ seq 0 (length targets) ->
  Forall (fun t => is_Ok (branch i t)) targets ->
  exists out,
    run references i order = Some (Ok out)
    /\ (forall order', order' ≡ₚ order ->
          run references i order' = run references i order)
    /\ length (bold_std out) = length targets
    /\ length (bold_std_ref out) = length targets
    /\ length (bold_mask_std out) = length targets
    /\ length (spatial_reference out) = length targets
    /\ length (template out) = length targets
    /\ forall k t, targets !! k = Some t ->
         exists n, branch i t = Ok n
           /\ bold_std out !! k = Some (merge n)
           /\ bold_std_ref out !! k = Some (gen_final_ref n)
           /\ bold_mask_std out !! k = Some (mask_std_tfm n)
           /\ spatial_reference out !! k = Some (format_reference t)
           /\ template out !! k = Some t.1.
Proof.
  intros targets Hperm Hok.
  assert (forall order', order' ≡ₚ order ->
            run references i order' = run references i order) as Hindep.
  { intros order' Hp. rewrite !run_perm; [done..|by rewrite Hp]. }
  destruct (map_result_id_Ok (branch i <$> targets)) as (ns & Hmap & Hns).
  { by apply Forall_fmap. }
  assert (length ns = length targets) as Hlen.
  { apply (f_equal length) in Hns. by rewrite !length_fmap in Hns. }
  exists (outputnode freesurfer multiecho (poutputnode <$> ns)).
  split; [|split; [exact Hindep|]].
  { rewrite (run_perm _ _ _ Hperm). fold targets. by rewrite Hmap. }
  cbn.
  rewrite !length_fmap. repeat (split; [exact Hlen|]).
  intros k t Hk.
  assert ((Ok <$> ns) !! k = Some (branch i t)) as Hbk
    by (by rewrite <- Hns, list_lookup_fmap, Hk).
  rewrite list_lookup_fmap in Hbk.
  destruct (ns !! k) as [n|] eqn:En; [|discriminate].
  injection Hbk as Hbk. exists n. split; [done|].
  destruct (branch_inv i t n) as (_ & _ & _ & Hsrc & Hsplit & _); [done|].
  rewrite !list_lookup_fmap, En. cbn. rewrite Hsrc, Hsplit. done.
Qed.

(** C3. For every requested standard space the chain handed to the one
    resampling call is, in this order: the anatomical-to-standard transform
    selected for the space, the functional-to-anatomical affine, the
    distortion-correction field when one is connected, and the
    motion-correction transforms; the output series consists of the
    volumes of that single call. *)
Theorem std_transform_chain (i : inputs) (t : string * dict) (n : nodes) :
  branch i t = Ok n ->
  (exists k, templates i !! k = Some t.1
             /\ anat2std_xfm i !! k = Some (select_std n))
  /\ merge_xforms n =
       ([select_std n] ++ _aslist (itk_bold_to_t1 i)
          ++ merge_in (fieldwarp i) ++ merge_in (hmc_xforms i))%list
  /\ (forall a, itk_bold_to_t1 i = inl a ->
        (forall w, fieldwarp i = Single w ->
           merge_xforms n = select_std n :: a :: w :: merge_in (hmc_xforms i))
        /\ (fieldwarp i = Undefined ->
             merge_xforms n = select_std n :: a :: merge_in (hmc_xforms i)))
  /\ bold_to_std_transform n =
       MultiApplyTransforms "LanczosWindowedSinc" true true (bold_split i)
         (gen_ref n) (merge_xforms n)
  /\ volumes (merge n) = Clip 0 <$> bold_to_std_transform n.
Proof.
  intros Hb.
  destruct (branch_inv i t n Hb)
    as (Hsel & _ & _ & _ & _ & _ & _ & Hx & Hr & Hthr & Hm & _).
  apply KeySelect_Ok in Hsel as (k & Hk & Hf & _).
  assert (merge_xforms n =
            ([select_std n] ++ _aslist (itk_bold_to_t1 i)
               ++ merge_in (fieldwarp i) ++ merge_in (hmc_xforms i))%list)
    as Hchain.
  { rewrite Hx. unfold Merge. cbn. by rewrite app_nil_r. }
  split; [by exists k|]. split; [exact Hchain|]. split.
  - intros a Ha. rewrite Hchain, Ha. split.
    + by intros w ->.
    + by intros ->.
  - split; [exact Hr|]. by rewrite Hm, Hthr.
Qed.

End StdTransFacts.

(** ** Native-space resampling *)

Section PreprocTransFacts.
Import PreprocTrans Maths.
Context `{ANTs}.

(** C10. [use_fieldwarp] changes the description of the workflow and
    nothing else: with either value the transforms handed to the
    resampling node are [Merge(2)] of [fieldwarp] and [hmc_xforms] as
    found on the input node, and the same inputs give the same node
    outputs. *)
Theorem use_fieldwarp_only_describes (use_compression : bool)
    (interpolation : string) (i : inputs) :
  let wf := init_bold_preproc_trans_wf use_compression in
  run (wf true interpolation) i = run (wf false interpolation) i
  /\ (forall use_fieldwarp,
        merge_xforms <$> run (wf use_fieldwarp interpolation) i
        = (fun _ => (merge_in (fieldwarp i) ++ merge_in (hmc_xforms i))%list)
            <$> run (wf use_fieldwarp interpolation) i)
  /\ (forall use_fieldwarp,
        bold_transform <$> run (wf use_fieldwarp interpolation) i
        = (fun reference =>
             MultiApplyTransforms interpolation false true (bold_file i)
               reference (merge_in (fieldwarp i) ++ merge_in (hmc_xforms i))%list)
            <$> _first (bold_file i))
  /\ __desc__ (wf true interpolation) <> __desc__ (wf false interpolation).
Proof.
  cbn. split; [reflexivity|]. split; [|split].
  - intros _. destruct (_first (bold_file i)); cbn; [|done].
    unfold Merge. cbn. by rewrite app_nil_r.
  - intros _. destruct (_first (bold_file i)); cbn; [|done].
    unfold Merge. cbn. by rewrite app_nil_r.
  - discriminate.
Qed.

End PreprocTransFacts.

(** ** Clipping after interpolation *)

Section ClipFacts.
Import Maths.
Local Open Scope Q_scope.
Context `{ANTs} `{Niworkflows}.

Lemma clip_nonneg (v : Q) : 0 <= v -> clip 0 v = v.
Proof. unfold clip. destruct (Qlt_le_dec v 0); [lra|done]. Qed.

Lemma clip_neg (v : Q) : v < 0 -> clip 0 v = 0.
Proof. unfold clip. destruct (Qlt_le_dec v 0); [done|lra]. Qed.

Lemma clip_max (v : Q) : clip 0 v == Qmax v 0.
Proof.
  unfold clip. destruct (Qlt_le_dec v 0).
  - rewrite Q.max_r; [reflexivity|lra].
  - rewrite Q.max_l; [reflexivity|lra].
Qed.

Lemma voxel_Clip (vols : list volume) (k j : nat) :
  voxel (Clip 0 <$> vols) k j = clip 0 <$> voxel vols k j.
Proof.
  unfold voxel. rewrite list_lookup_fmap.
  destruct (vols !! k) as [vol|]; [|done].
  exact (list_lookup_fmap (clip 0) vol j).
Qed.

(** C4. Both volumetric resamplers clip the resampled series at zero:
    the output series is, volume by volume and voxel by voxel, the maximum
    of 0 and the value MultiApplyTransforms interpolated from the input
    series (on the sampling reference and through the transform list of
    the workflow), so non-negative values pass unchanged, and the values
    -0.3, -0.0001, 0, 5 become 0, 0, 0, 5. *)
Theorem resampled_series_clipped (freesurfer multiecho use_compression : bool) :
  (forall v, clip 0 v == Qmax v 0)
  /\ (forall v, 0 <= v -> clip 0 v = v)
  /\ Clip 0 [-3 # 10; -1 # 10000; 0; 5] = [0; 0; 0; 5]
  /\ (forall i t n,
        StdTrans.branch freesurfer multiecho use_compression i t = Ok n ->
        exists sel fixed moving,
          KeySelect (StdTrans.templates i) t.1 (StdTrans.anat2std_xfm i) = Ok sel
          /\ _select_template t = Ok fixed
          /\ _first (StdTrans.bold_split i) = Ok moving
          /\ let interpolated :=
               MultiApplyTransforms "LanczosWindowedSinc" true true
                 (StdTrans.bold_split i)
                 (GenerateSamplingReference moving fixed (_is_native t.2))
                 (Merge [Single sel; Multi (_aslist (StdTrans.itk_bold_to_t1 i));
                         StdTrans.fieldwarp i; StdTrans.hmc_xforms i]) in
             StdTrans.bold_to_std_transform n = interpolated
             /\ volumes (StdTrans.bold_std (StdTrans.poutputnode n))
                = Clip 0 <$> interpolated
             /\ forall k j,
                  voxel (volumes (StdTrans.bold_std (StdTrans.poutputnode n))) k j
                  = clip 0 <$> voxel interpolated k j)
  /\ (forall use_fieldwarp interpolation i n,
        PreprocTrans.run
          (PreprocTrans.init_bold_preproc_trans_wf use_compression
             use_fieldwarp interpolation) i = Ok n ->
        exists reference,
          _first (PreprocTrans.bold_file i) = Ok reference
          /\ let interpolated :=
               MultiApplyTransforms interpolation false true
                 (PreprocTrans.bold_file i) reference
                 (Merge [PreprocTrans.fieldwarp i; PreprocTrans.hmc_xforms i]) in
             PreprocTrans.bold_transform n = interpolated
             /\ volumes (PreprocTrans.bold (PreprocTrans.outputs n))
                = Clip 0 <$> interpolated
             /\ forall k j,
                  voxel (volumes (PreprocTrans.bold (PreprocTrans.outputs n))) k j
                  = clip 0 <$> voxel interpolated k j).
Proof.
  split; [exact clip_max|]. split; [exact clip_nonneg|].
  split; [reflexivity|]. split.
  - intros i t n Hb.
    destruct (branch_inv _ _ _ i t n Hb)
      as (Hsel & Htpl & (moving & Hmov & Href) & _ & _ & _ & _ & Hx & Hres
          & Hthr & Hm & _).
    exists (StdTrans.select_std n), (StdTrans.select_tpl n), moving.
    split; [exact Hsel|]. split; [exact Htpl|]. split; [exact Hmov|].
    cbv zeta. rewrite <- Href, <- Hx, <- Hres.
    cbn [StdTrans.poutputnode StdTrans.bold_std]. rewrite Hm, Hthr.
    split; [reflexivity|]. split; [reflexivity|].
    intros k j. apply voxel_Clip.
  - intros uf interp i n Hr. cbn in Hr.
    destruct (_first (PreprocTrans.bold_file i)) as [reference|e] eqn:Hfirst;
      [|discriminate].
    cbn in Hr. injection Hr as <-. exists reference.
    split; [reflexivity|]. cbn.
    split; [reflexivity|]. split; [reflexivity|].
    intros k j. apply voxel_Clip.
Qed.

End ClipFacts.

(** ** Surface resampling to fsLR *)

Section SelectSurfacesFacts.

Lemma append_cons (c : ascii) (a s : string) :
  String c a ++ s = String c (a ++ s).
Proof. reflexivity. Qed.

Lemma ascii_compare_refl (c : ascii) : Ascii.compare c c = Eq.
Proof. unfold Ascii.compare. apply N.compare_refl. Qed.

Lemma compare_app_prefix (a s1 s2 : string) :
  String.compare (a ++ s1) (a ++ s2) = String.compare s1 s2.
Proof.
  induction a as [|c a IH]; [done|].
  rewrite !append_cons. cbn -[Ascii.compare]. by rewrite ascii_compare_refl.
Qed.

Lemma leb_app_prefix (a s1 s2 : string) :
  String.leb (a ++ s1) (a ++ s2) = String.leb s1 s2.
Proof. unfold String.leb. by rewrite compare_app_prefix. Qed.

Lemma has_slash_app (a s : string) :
  has_slash (a ++ String "/"%char s) = true.
Proof.
  induction a as [|c a IH]; [done|].
  rewrite append_cons. cbn. rewrite IH. by destruct (Ascii.eqb c "/").
Qed.

Lemma basename_join (a name : string) :
  has_slash name = false -> basename (a ++ String "/"%char name) = name.
Proof.
  intros Hn. induction a as [|c a IH].
  - change (basename (String "/"%char name) = name). cbn. by rewrite Hn.
  - rewrite append_cons. cbn. by rewrite has_slash_app.
Qed.

(** The two atlas ROI files, sorted by path and then by base name, are the
    left one followed by the right one, wherever the atlases live. *)
Lemma sorted_atlas_rois (dir : string) :
  sorted_by basename
    (sorted_by id [dir ++ "/L.atlasroi.32k_fs_LR.shape.gii";
                   dir ++ "/R.atlasroi.32k_fs_LR.shape.gii"])
  = [dir ++ "/L.atlasroi.32k_fs_LR.shape.gii";
     dir ++ "/R.atlasroi.32k_fs_LR.shape.gii"].
Proof.
  assert (sorted_by id [dir ++ "/L.atlasroi.32k_fs_LR.shape.gii";
                        dir ++ "/R.atlasroi.32k_fs_LR.shape.gii"]
          = [dir ++ "/L.atlasroi.32k_fs_LR.shape.gii";
             dir ++ "/R.atlasroi.32k_fs_LR.shape.gii"]) as ->.
  { cbn. unfold id. by rewrite leb_app_prefix. }
  cbn. by rewrite !basename_join.
Qed.

End SelectSurfacesFacts.

Section FsLRFacts.
Import FsLR.
Context `{Surfaces}.
Variable grayord_density : string.

Local Abbreviation hemisphere := (FsLR.hemisphere grayord_density).

Lemma select_surfaces_template_roi (hemi : string)
    (surfs morphs regs spheres : list string) (s : selected) :
  _select_surfaces hemi surfs morphs regs spheres template_rois = Ok s ->
  template_roi s =
    atlases ++ (if decide (hemi = "L")
                then "/L.atlasroi.32k_fs_LR.shape.gii"
                else "/R.atlasroi.32k_fs_LR.shape.gii").
Proof.
  unfold _select_surfaces, template_rois. intros Hs. bind_inv Hs.
  injection Hs as <-. cbn [template_roi].
  rewrite sorted_atlas_rois in E5.
  destruct (decide (hemi = "L")); cbn in E5; by injection E5 as <-.
Qed.

(** C5. In each hemisphere the projected series goes through these stages
    in this order: dilation by 10 mm with nearest-value fill, masking by
    the native ROI (the thickness ROI with holes filled and islands
    removed), ADAP_BARY_AREA resampling with the native midthickness and
    the downsampled midthickness as area surfaces, and masking by the
    atlas ROI file of the hemisphere. *)
Theorem fsLR_stage_order (i : inputs) (volume_roi : option volume)
    (hemi : string) (n : nodes) :
  hemisphere i volume_roi hemi = Ok n ->
  let s := select_surfaces n in
  volume_to_surface n =
    VolumeToSurfaceMapping "ribbon-constrained" (bold_file i)
      (midthickness s) (white s) (pial s) volume_roi
  /\ metric_dilate n = MetricDilate 10 true (midthickness s) (volume_to_surface n)
  /\ native_roi n =
       MetricRemoveIslands (midthickness s)
         (MetricFillHoles (midthickness s) (CreateROI hemi (thickness s)))
  /\ mask_native n = MetricMask (metric_dilate n) (native_roi n)
  /\ downsampled_midthickness n =
       SurfaceResample "BARYCENTRIC" (midthickness s) (sphere_reg s)
         (template_sphere s)
  /\ resample_to_fsLR n =
       MetricResample "ADAP_BARY_AREA" true (mask_native n) (sphere_reg s)
         (template_sphere s) (midthickness s) (downsampled_midthickness n)
         (native_roi n)
  /\ mask_fsLR n = MetricMask (resample_to_fsLR n) (template_roi s)
  /\ template_roi s =
       atlases ++ (if decide (hemi = "L")
                   then "/L.atlasroi.32k_fs_LR.shape.gii"
                   else "/R.atlasroi.32k_fs_LR.shape.gii").
Proof.
  unfold FsLR.hemisphere. intros Hh.
  apply bind_Ok in Hh as (s & Hs & Hh). injection Hh as <-. cbn.
  repeat (split; [reflexivity|]).
  by eapply select_surfaces_template_roi.
Qed.

(** The two hemispheres are joined left first, whichever completes first. *)
Lemma fsLR_pair_order `{FSL.Kernels} `{ANTs} (i : inputs) (order : list nat)
    (nl nr : nodes) :
  order ≡ₚ [0; 1] ->
  hemisphere i None "L" = Ok nl ->
  hemisphere i None "R" = Ok nr ->
  FsLR.run grayord_density false i order
  = Some (Ok {| bold_fsLR := [mask_fsLR nl; mask_fsLR nr];
                goodvoxels_mask := None |}).
Proof.
  intros Hperm Hl Hr. unfold FsLR.run.
  rewrite (fan_out_join_perm _ ["L"; "R"] order Hperm).
  cbn -[FsLR.hemisphere]. by rewrite Hl, Hr.
Qed.

End FsLRFacts.

(** ** Grayordinates *)

Section GrayordsFacts.
Import Grayords.
Context `{Surfaces}.

(** C7. The key selected is MNI152NLin6Asym_res-2 for 91k grayordinates
    and MNI152NLin6Asym_res-1 for 170k; a successful run has picked the
    entry of [bold_std] at the one position where [spatial_reference]
    holds that key, and a run whose [spatial_reference] lacks the key
    fails. *)
Theorem grayords_select_std (repetition_time : Q) (i : inputs) :
  select_std_key "91k" = "MNI152NLin6Asym_res-2"
  /\ select_std_key "170k" = "MNI152NLin6Asym_res-1"
  /\ forall grayord_density,
       (forall n, run grayord_density repetition_time i = Ok n ->
          exists k,
            spatial_reference i !! k = Some (select_std_key grayord_density)
            /\ bold_std i !! k = Some (select_std n)
            /\ forall k', spatial_reference i !! k'
                          = Some (select_std_key grayord_density) -> k' = k)
       /\ (select_std_key grayord_density ∉ spatial_reference i ->
           run grayord_density repetition_time i = Raise ValueError).
Proof.
  split; [reflexivity|]. split; [reflexivity|].
  intros d. split.
  - intros n Hr. unfold run in Hr. bind_inv Hr. injection Hr as <-.
    by apply KeySelect_Ok.
  - intros Hnin. unfold run. by rewrite KeySelect_missing.
Qed.

End GrayordsFacts.

(** ** Template selection *)

Section SelectTemplateFacts.
Context `{Niworkflows}.

(** C6 (amended). A request that names no resolution, or "native", is
    looked up at resolution 2 and, when that lookup raises RuntimeError, at
    resolution 1: it succeeds exactly when one of the two does, and fails
    only when the first lookup fails and, if that failure was a
    RuntimeError, the second fails too.  A request that names a resolution
    is looked up at that resolution only. *)
Theorem select_template_policy (tpl : string) (specs : dict) :
  let t := split_colon_0 tpl in
  let popped :=
    pop_resolution (<["suffix" := default (PyStr "T1w") (specs !! "suffix")]> specs) in
  let first := get_template_specs t (<["resolution" := PyInt 2]> popped.2) in
  let second := get_template_specs t (<["resolution" := PyInt 1]> first.1) in
  if decide (popped.1 = PyStr "native") then
    (forall p, _select_template (tpl, specs) = Ok p <->
               (exists c, first.2 = Ok (p, c))
               \/ (first.2 = Raise RuntimeError /\ exists c, second.2 = Ok (p, c)))
    /\ (is_Raise (_select_template (tpl, specs)) <->
        is_Raise first.2 /\ (first.2 = Raise RuntimeError -> is_Raise second.2))
  else
    _select_template (tpl, specs)
    = fst <$> (get_template_specs t (<["resolution" := popped.1]> popped.2)).2.
Proof.
  cbv zeta. unfold _select_template.
  destruct (pop_resolution _) as [res s0]. cbn [fst snd].
  destruct (decide (res = PyStr "native")) as [->|Hne].
  - rewrite decide_False by (by intros ?).
    destruct (get_template_specs _ _) as [s1 [[p1 c1]|e1]] eqn:E1; cbn [fst snd].
    + split.
      * intros p. split.
        -- intros [= <-]. left. by exists c1.
        -- intros [[c [= -> ->]]|[[=] _]]. done.
      * split; [intros [e [=]]|intros [[e [=]] _]].
    + destruct (decide (e1 = RuntimeError)) as [->|He1].
      * destruct (get_template_specs _ (<["resolution" := PyInt 1]> s1))
          as [s2 [[p2 c2]|e2]] eqn:E2; cbn [fst snd]; cbn.
        -- split.
           ++ intros p. split.
              ** intros [= <-]. right. split; [done|by exists c2].
              ** intros [[c [=]]|[_ [c [= -> ->]]]]. done.
           ++ split; [intros [e [=]]|].
              intros [_ Hs]. destruct (Hs eq_refl) as [e [=]].
        -- split.
           ++ intros p. split; [intros [=]|].
              intros [[c [=]]|[_ [c [=]]]].
           ++ split; [|by eexists].
              intros _. split; [by eexists|]. intros _. by eexists.
      * assert (match e1 with
                | RuntimeError =>
                    fst <$> (get_template_specs (split_colon_0 tpl)
                               (<["resolution" := PyInt 1]> s1)).2
                | _ => Raise e1
                end = (Raise e1 : result string)) as -> by (by destruct e1).
        split.
        -- intros p. split; [intros [=]|].
           intros [[c [=]]|[[= ->] _]]. done.
        -- split; [|by eexists].
           intros _. split; [by eexists|]. intros [= ->]. done.
  - by rewrite decide_True.
Qed.

End SelectTemplateFacts.

(** ** The goodvoxels mask *)

Section GoodVoxelsFacts.
Import FSL GoodVoxels.
Local Open Scope Q_scope.
Context `{Kernels} `{ANTs}.

Lemma keep_mono (t t' c b : Q) : t <= t' -> keep t c b <= keep t' c b.
Proof.
  intros Ht. unfold keep, bin, thr.
  repeat (destruct (Qlt_le_dec _ _)); lra.
Qed.

Lemma goodvoxels_mask_from_eq (t : Q) (cmod bm : volume) :
  goodvoxels_mask_from t cmod bm =
    if decide (length cmod = length bm)
    then Ok (zip_with (keep t) cmod bm)
    else Raise RuntimeError.
Proof.
  unfold goodvoxels_mask_from, run_goodvoxels_thr, run_goodvoxels_mask,
    MultiImageMaths, pointwise. cbn.
  unfold pointwise. rewrite !length_fmap.
  destruct (decide (length cmod = length bm)) as [Hl|Hl]; cbn; [|done].
  f_equal. clear Hl. revert bm.
  induction cmod as [|c cmod IH]; intros [|b bm]; cbn; [done..|].
  f_equal. apply IH.
Qed.

Lemma run_inv (i : inputs) (n : nodes) :
  run i = Ok n ->
  stdev_volume n = Tstd (bold_file i)
  /\ mean_volume n = Tmean (bold_file i)
  /\ run_cov_volume (stdev_volume n) (mean_volume n) = Ok (cov_volume n)
  /\ mod_ribbon_mean n = stat_M (cov_norm_modulate_ribbon n)
  /\ mod_ribbon_std n = stat_S (cov_norm_modulate_ribbon n)
  /\ merge_mod_ribbon_stats n = [mod_ribbon_mean n; mod_ribbon_std n]
  /\ _calc_upper_thr (merge_mod_ribbon_stats n) = Ok (upper_thr_val n)
  /\ _calc_lower_thr (merge_mod_ribbon_stats n) = Ok (lower_thr_val n)
  /\ bin_mean_volume n = bin <$> mean_volume n
  /\ goodvoxels_thr n = thr (upper_thr_val n) <$> cov_norm_modulate n
  /\ goodvoxels_mask_from (upper_thr_val n) (cov_norm_modulate n)
       (bin_mean_volume n) = Ok (goodvoxels_mask n).
Proof.
  unfold run. intros Hr. bind_inv Hr. injection Hr as <-. cbn [stdev_volume
    mean_volume cov_volume mod_ribbon_mean mod_ribbon_std
    cov_norm_modulate_ribbon merge_mod_ribbon_stats upper_thr_val
    lower_thr_val bin_mean_volume goodvoxels_thr goodvoxels_mask
    cov_norm_modulate].
  repeat match goal with
         | E : fslmaths _ [Bin] = Ok _ |- _ => injection E as <-
         | E : run_goodvoxels_thr _ _ = Ok _ |- _ =>
             unfold goodvoxels_mask_from; rewrite E; injection E as <-
         end.
  repeat split; try done.
Qed.

(** C2. The upper threshold is mod_mean + 0.5 * mod_std and the lower
    threshold is mod_std - 0.5 * mod_mean, where (mod_mean, mod_std) are
    the ribbon statistics of the modulated normalised COV volume merged in
    this order. *)
Theorem thresholds_from_ribbon_stats (i : inputs) (n : nodes) :
  run i = Ok n ->
  merge_mod_ribbon_stats n
    = [stat_M (cov_norm_modulate_ribbon n); stat_S (cov_norm_modulate_ribbon n)]
  /\ (forall mod_mean mod_std,
        merge_mod_ribbon_stats n = [mod_mean; mod_std] ->
        upper_thr_val n = mod_mean + mod_std * (1 # 2)
        /\ upper_thr_val n == mod_mean + (1 # 2) * mod_std
        /\ lower_thr_val n = mod_std - mod_mean * (1 # 2)
        /\ lower_thr_val n == mod_std - (1 # 2) * mod_mean).
Proof.
  intros Hr.
  destruct (run_inv i n Hr)
    as (_ & _ & _ & Hm & Hs & Hstats & Hup & Hlo & _).
  split; [by rewrite Hstats, Hm, Hs|].
  intros mod_mean mod_std Hms. rewrite Hms in Hup, Hlo.
  injection Hup as <-. injection Hlo as <-.
  repeat split; lra.
Qed.

(** C8. With the modulated COV volume and the brain mask fixed, raising the
    threshold handed to [goodvoxels_thr] never lowers the mask at any
    voxel: a voxel kept (positive) under the smaller threshold is kept
    under the larger one. *)
Theorem goodvoxels_mask_monotone (cmod bm : volume) (t t' : Q) (m : volume) :
  t <= t' ->
  goodvoxels_mask_from t cmod bm = Ok m ->
  exists m',
    goodvoxels_mask_from t' cmod bm = Ok m'
    /\ length m' = length m
    /\ forall k x, m !! k = Some x ->
         exists x', m' !! k = Some x' /\ x <= x' /\ (0 < x -> 0 < x').
Proof.
  intros Ht. rewrite !goodvoxels_mask_from_eq.
  destruct (decide (length cmod = length bm)) as [Hl|Hl]; [|discriminate].
  intros [= <-]. eexists. split; [reflexivity|].
  split; [by rewrite !length_zip_with|].
  intros k x Hk. apply lookup_zip_with_Some in Hk as (c & b & -> & Hc & Hb).
  exists (keep t' c b). split.
  - apply lookup_zip_with_Some. eauto.
  - pose proof (keep_mono t t' c b Ht). split; [done|lra].
Qed.


End GoodVoxelsFacts.

Section GoodVoxelsTotal.
Import FSL GoodVoxels.
Local Open Scope Q_scope.
Context `{Kernels} `{ANTs}.

(** The kernels keep the grid of the image they are given. *)
Hypothesis Tstd_grid : forall b, length (Tstd b) = length (Tmean b).
Hypothesis ApplyTransforms_grid :
  forall interp v ref x, length (ApplyTransforms interp v ref x) = length ref.
Hypothesis smooth_grid : forall sigma v, length (smooth sigma v) = length v.
Hypothesis dilD_grid : forall v, length (dilD v) = length v.

Ltac grid :=
  repeat (rewrite ?length_fmap, ?length_zip_with, ?smooth_grid, ?dilD_grid,
            ?Tstd_grid, ?ApplyTransforms_grid; try lia).

Ltac next_node :=
  unfold pointwise;
  rewrite decide_True by (cbn; grid); cbn.

(** On such kernels every node of the workflow runs. *)
Lemma run_total (i : inputs) : is_Ok (run i).
Proof.
  unfold run, run_cov_volume, run_goodvoxels_thr, run_goodvoxels_mask,
    MultiImageMaths, _calc_upper_thr, _calc_lower_thr. cbn.
  do 7 next_node.
  by eexists.
Qed.

End GoodVoxelsTotal.

(** ** The workflows on concrete inputs *)

Section Instances.
Import Sample.
Local Open Scope Q_scope.

Example select_template_falls_back :
  _select_template ("MNIInfant:cohort-1", ∅) = Ok "tpl-MNIInfant_res-01_T1w.nii.gz"
  /\ _select_template ("MNI152Lin", {["resolution" := PyStr "native"]})
     = Ok "tpl-MNI152Lin_res-02_T1w.nii.gz".
Proof. split; vm_compute; reflexivity. Qed.

(** C6, as stated, fails: a request for resolution 3 of a template that
    offers resolutions 1 and 2 raises at once; neither resolution on
    offer is tried. *)
Lemma select_template_explicit_no_fallback :
  let request := ("MNI152NLin2009cAsym", ({["res" := PyInt 3]} : dict)) in
  let on_offer r :=
    (get_template_specs request.1
       ({["suffix" := PyStr "T1w"; "resolution" := PyInt r]} : dict)).2 in
  _select_template request = Raise RuntimeError
  /\ on_offer 3%Z = Raise RuntimeError
  /\ is_Ok (on_offer 2%Z)
  /\ is_Ok (on_offer 1%Z).
Proof.
  cbv zeta. repeat split; try (vm_compute; reflexivity);
    apply (bool_decide_unpack _); vm_compute; exact I.
Qed.

Lemma sample_targets :
  StdTrans.std_vol_references references
  = [("MNI152Lin", ∅); ("MNI152NLin6Asym", {["res" := PyInt 2]})].
Proof. vm_compute. reflexivity. Qed.

Lemma join_correspondence_witness :
  [1; 0]%nat ≡ₚ seq 0 (length (StdTrans.std_vol_references references))
  /\ exists out,
       StdTrans.run false true true references std_inputs [1; 0]%nat
       = Some (Ok out)
       /\ StdTrans.template out = ["MNI152Lin"; "MNI152NLin6Asym"]
       /\ length (StdTrans.bold_std out) = 2%nat.
Proof.
  assert ([1; 0]%nat ≡ₚ seq 0 (length (StdTrans.std_vol_references references)))
    as Hperm by (rewrite sample_targets; apply perm_swap).
  split; [exact Hperm|].
  destruct (join_correspondence false true true references std_inputs
              [1; 0]%nat Hperm)
    as (out & Hrun & _ & Hlen & _ & _ & _ & _ & Hk).
  - apply (bool_decide_unpack _). vm_compute. exact I.
  - exists out. split; [exact Hrun|]. split.
    + vm_compute in Hrun. injection Hrun as <-. reflexivity.
    + rewrite Hlen, sample_targets. reflexivity.
Defined.

Lemma std_transform_chain_witness :
  exists n,
    sample_branch = Ok n
    /\ StdTrans.merge_xforms n
       = ["anat2nlin6.h5"; "bold2t1.txt"; "fieldwarp.h5"; "hmc0.txt"; "hmc1.txt"].
Proof.
  destruct sample_branch as [n|e] eqn:E; [|vm_compute in E; discriminate].
  exists n. split; [reflexivity|].
  destruct (std_transform_chain false true true std_inputs _ n E)
    as (_ & Hchain & _).
  rewrite Hchain. vm_compute in E. injection E as <-. reflexivity.
Defined.

Lemma resampled_series_clipped_witness :
  exists n m,
    sample_branch = Ok n
    /\ volumes (StdTrans.bold_std (StdTrans.poutputnode n)) = [[0; 5]; [0; 0]]
    /\ voxel (volumes (StdTrans.bold_std (StdTrans.poutputnode n))) 0 0 = Some 0
    /\ voxel (volumes (StdTrans.bold_std (StdTrans.poutputnode n))) 0 1 = Some 5
    /\ PreprocTrans.run
         (PreprocTrans.init_bold_preproc_trans_wf true false
            "LanczosWindowedSinc") native_inputs = Ok m
    /\ volumes (PreprocTrans.bold (PreprocTrans.outputs m)) = [[0; 0]; [0; 5]].
Proof.
  destruct sample_branch as [n|e] eqn:E; [|vm_compute in E; discriminate].
  destruct (PreprocTrans.run
              (PreprocTrans.init_bold_preproc_trans_wf true false
                 "LanczosWindowedSinc") native_inputs) as [m|e] eqn:Em;
    [|vm_compute in Em; discriminate].
  exists n, m. split; [reflexivity|].
  destruct (resampled_series_clipped false true true)
    as (_ & _ & _ & Hstd & Hnat).
  destruct (Hstd std_inputs _ n E)
    as (sel & fixed & moving & _ & _ & _ & _ & Hvol & Hvox).
  destruct (Hnat false "LanczosWindowedSinc" native_inputs m Em)
    as (reference & _ & _ & Hvolm & _).
  rewrite !Hvox, Hvol, Hvolm.
  repeat split; reflexivity.
Defined.

Lemma grayords_select_std_witness :
  exists n,
    Grayords.run "91k" 2 grayords_inputs = Ok n
    /\ Grayords.select_std n = {| header_source := "nlin6"; volumes := [] |}
    /\ Grayords.run "170k" 2 grayords_inputs = Raise ValueError.
Proof.
  destruct (grayords_select_std 2 grayords_inputs) as (_ & _ & Hsel).
  destruct (Grayords.run "91k" 2 grayords_inputs) as [n|e] eqn:E;
    [|vm_compute in E; discriminate].
  exists n. split; [reflexivity|].
  destruct (Hsel "91k") as [Hok _]. destruct (Hok n E) as (k & Hk & Hb & _).
  destruct (Hsel "170k") as [_ Hmiss]. split.
  - destruct k as [|[|k]]; vm_compute in Hk; try discriminate.
    cbv [grayords_inputs Grayords.bold_std lookup list_lookup] in Hb.
    by injection Hb as <-.
  - apply Hmiss. apply (bool_decide_unpack _). vm_compute. exact I.
Defined.

Lemma thresholds_from_ribbon_stats_witness :
  exists n,
    GoodVoxels.run goodvoxels_inputs = Ok n
    /\ GoodVoxels.upper_thr_val n
       == FSL.stat_M (GoodVoxels.cov_norm_modulate_ribbon n)
          + (1 # 2) * FSL.stat_S (GoodVoxels.cov_norm_modulate_ribbon n)
    /\ GoodVoxels.lower_thr_val n
       == FSL.stat_S (GoodVoxels.cov_norm_modulate_ribbon n)
          - (1 # 2) * FSL.stat_M (GoodVoxels.cov_norm_modulate_ribbon n).
Proof.
  destruct (GoodVoxels.run goodvoxels_inputs) as [n|e] eqn:E;
    [|vm_compute in E; discriminate].
  exists n. split; [reflexivity|].
  destruct (thresholds_from_ribbon_stats goodvoxels_inputs n E) as [Hstats Hthr].
  destruct (Hthr _ _ Hstats) as (_ & Hup & _ & Hlo). by split.
Defined.

Lemma goodvoxels_mask_monotone_witness :
  2 <= 4
  /\ GoodVoxels.goodvoxels_mask_from 2 [1; 3; 5] [1; 1; 1] = Ok [1; 0; 0]
  /\ exists m',
       GoodVoxels.goodvoxels_mask_from 4 [1; 3; 5] [1; 1; 1] = Ok m'
       /\ length m' = 3%nat
       /\ forall k x, [1; 0; 0] !! k = Some x ->
            exists x', m' !! k = Some x' /\ x <= x' /\ (0 < x -> 0 < x').
Proof.
  assert (2 <= 4) as Hle by (by vm_compute).
  assert (GoodVoxels.goodvoxels_mask_from 2 [1; 3; 5] [1; 1; 1] = Ok [1; 0; 0])
    as Hm by (vm_compute; reflexivity).
  split; [exact Hle|]. split; [exact Hm|].
  exact (goodvoxels_mask_monotone [1; 3; 5] [1; 1; 1] 2 4 [1; 0; 0] Hle Hm).
Defined.


Lemma fsLR_stage_order_witness :
  exists n,
    FsLR.hemisphere "91k" fsLR_inputs None "R" = Ok n
    /\ FsLR.select_surfaces n
       = {| white := "/anat/sub-01_hemi-R_white.surf.gii";
            pial := "/anat/sub-01_hemi-R_pial.surf.gii";
            midthickness := "/anat/sub-01_hemi-R_midthickness.surf.gii";
            thickness := "/anat/sub-01_hemi-R_thickness.shape.gii";
            sphere_reg := "/anat/sub-01_hemi-R_space-fsLR_desc-reg_sphere.surf.gii";
            template_sphere := "/tf/tpl-fsLR_hemi-R_den-32k_sphere.surf.gii";
            template_roi := "/smriprep/data/atlases/R.atlasroi.32k_fs_LR.shape.gii" |}
    /\ FsLR.mask_fsLR n
       = MetricMask (FsLR.resample_to_fsLR n)
           "/smriprep/data/atlases/R.atlasroi.32k_fs_LR.shape.gii".
Proof.
  destruct (FsLR.hemisphere "91k" fsLR_inputs None "R") as [n|e] eqn:E;
    [|vm_compute in E; discriminate].
  exists n. split; [reflexivity|].
  destruct (fsLR_stage_order "91k" fsLR_inputs None "R" n E)
    as (_ & _ & _ & _ & _ & _ & Hmask & Hroi).
  split.
  - vm_compute in E. injection E as <-. reflexivity.
  - rewrite Hmask, Hroi. reflexivity.
Defined.


End Instances.

(** * Further properties of the module *)

(** ** The name pattern of [_select_surfaces] *)

Section FindNameFacts.

(** [s] ends in the letter d. *)
Local Abbreviation ends_d s := (exists p : string, s = p ++ "d").

Lemma append_nil_l (s : string) : EmptyString ++ s = s.
Proof. reflexivity. Qed.

Lemma ends_d_cons (c : ascii) (s : string) :
  ends_d (String c s) <-> (c = "d"%char /\ s = EmptyString) \/ ends_d s.
Proof.
  split.
  - intros [[|x p] Hp].
    + rewrite append_nil_l in Hp. injection Hp as -> ->. by left.
    + rewrite append_cons in Hp. injection Hp as -> ->. right. by exists p.
  - intros [[-> ->]|[p ->]].
    + by exists EmptyString.
    + exists (String c p). by rewrite append_cons.
Qed.

Lemma prefix_app (name s : string) :
  String.prefix name s = true <-> exists post, s = name ++ post.
Proof.
  revert s. induction name as [|c name IH]; intros s.
  - split; [intros _; by exists s|]. intros _. by destruct s.
  - destruct s as [|x s]; cbn.
    + split; [done|]. intros [post Hp]. by rewrite append_cons in Hp.
    + destruct (ascii_dec c x) as [->|Hne].
      * rewrite IH. split.
        -- intros [post ->]. exists post. by rewrite append_cons.
        -- intros [post Hp]. exists post. rewrite append_cons in Hp.
           by injection Hp.
      * split; [done|]. intros [post Hp]. rewrite append_cons in Hp.
        by injection Hp as -> _.
Qed.

Lemma name_at_Some (s name : string) :
  name_at s = Some name ->
  name ∈ surface_names /\ exists post, s = name ++ post.
Proof.
  unfold name_at. intros Hf. apply List.find_some in Hf as [Hin Hp].
  split; [by apply list_elem_of_In|]. by apply prefix_app.
Qed.

Lemma name_at_is_Some (s name post : string) :
  name ∈ surface_names -> s = name ++ post -> is_Some (name_at s).
Proof.
  intros Hin ->. unfold name_at.
  destruct (List.find _ _) as [n|] eqn:Hf; [by eexists|].
  apply list_elem_of_In in Hin.
  pose proof (List.find_none _ _ Hf _ Hin) as Hn. cbn in Hn.
  assert (String.prefix name (name ++ post) = true) as Hp
    by (apply prefix_app; by exists post).
  congruence.
Qed.

Lemma search_after_eq (prev : ascii) (s : string) :
  search_after prev s =
    match (if Ascii.eqb prev "d"%char then None else name_at s) with
    | Some name => Some name
    | None =>
        match s with
        | EmptyString => None
        | String c s' => search_after c s'
        end
    end.
Proof. by destruct s. Qed.

Lemma search_after_Some (prev : ascii) (s name : string) :
  search_after prev s = Some name ->
  name ∈ surface_names
  /\ exists pre post, s = pre ++ name ++ post /\ ~ ends_d (String prev pre).
Proof.
  revert prev. induction s as [|c s IH]; intros prev;
    rewrite search_after_eq;
    (destruct (if Ascii.eqb prev "d" then None else name_at _)
       as [n|] eqn:Hn; [|try done]).
  1, 2: intros [= ->];
    (destruct (Ascii.eqb_spec prev "d") as [Hd|Hd]; [done|]);
    apply name_at_Some in Hn as [Hin [post Hs]];
    (split; [done|]); exists EmptyString, post; (split; [done|]);
    rewrite ends_d_cons; intros [[? _]|[p Hp]]; [done|]; by destruct p.
  intros Hr. apply IH in Hr as [Hin (pre & post & -> & Hnd)].
  split; [done|]. exists (String c pre), post.
  split; [by rewrite append_cons|].
  rewrite ends_d_cons. intros [[_ ?]|?]; [done|]. by apply Hnd.
Qed.

Lemma search_after_is_Some (prev : ascii) (pre name post : string) :
  name ∈ surface_names -> ~ ends_d (String prev pre) ->
  is_Some (search_after prev (pre ++ name ++ post)).
Proof.
  intros Hin. revert prev. induction pre as [|c pre IH]; intros prev Hnd.
  - rewrite append_nil_l, search_after_eq.
    assert (prev <> "d"%char) as Hd.
    { intros ->. apply Hnd. by exists EmptyString. }
    destruct (name_at_is_Some (name ++ post) name post Hin eq_refl) as [n Hn].
    destruct (Ascii.eqb_spec prev "d"); [done|]. by rewrite Hn.
  - rewrite append_cons, search_after_eq.
    destruct (if Ascii.eqb prev "d" then None else name_at _); [done|].
    apply IH. intros Hc. apply Hnd. rewrite ends_d_cons. by right.
Qed.

(** X1. The pattern of [_select_surfaces] finds a name in a base name
    exactly when one of white, pial, midthickness, thickness occurs there
    at the start or after a character other than d; the name it reports
    occurs at such a place. *)
Theorem find_name_occurrence (s : string) :
  (forall name, find_name s = Some name ->
     name ∈ surface_names
     /\ exists pre post, s = pre ++ name ++ post /\ ~ ends_d pre)
  /\ (forall name pre post,
        name ∈ surface_names -> s = pre ++ name ++ post -> ~ ends_d pre ->
        is_Some (find_name s)).
Proof.
  split.
  - intros name. unfold find_name.
    destruct (name_at s) as [n|] eqn:Hn.
    + intros [= ->]. apply name_at_Some in Hn as [Hin [post ->]].
      split; [done|]. exists EmptyString, post. split; [done|].
      intros [p Hp]. by destruct p.
    + destruct s as [|c s]; [done|]. intros Hr.
      apply search_after_Some in Hr as [Hin (pre & post & -> & Hnd)].
      split; [done|]. exists (String c pre), post.
      split; [by rewrite append_cons|done].
  - intros name pre post Hin -> Hnd. unfold find_name.
    destruct (name_at _) as [n|] eqn:Hn; [done|].
    destruct pre as [|c pre].
    + rewrite append_nil_l in Hn.
      destruct (name_at_is_Some _ name post Hin eq_refl) as [n Hn'].
      congruence.
    + rewrite append_cons. by apply search_after_is_Some.
Qed.

End FindNameFacts.

(** ** [_select_surfaces] *)

Section SelectSurfacesMore.

Lemma insert_by_perm (key : string -> string) (x : string) (l : list string) :
  insert_by key x l ≡ₚ x :: l.
Proof.
  induction l as [|y l IH]; cbn; [done|].
  destruct (String.leb (key x) (key y)); [done|].
  rewrite IH. apply perm_swap.
Qed.

Lemma sorted_by_perm (key : string -> string) (l : list string) :
  sorted_by key l ≡ₚ l.
Proof.
  induction l as [|x l IH]; cbn; [done|].
  fold (sorted_by key l). by rewrite insert_by_perm, IH.
Qed.

Lemma length_sorted_by (key : string -> string) (l : list string) :
  length (sorted_by key l) = length l.
Proof. by rewrite sorted_by_perm. Qed.

Lemma key_ordered_cons (key : string -> string) (x : string) (l : list string) :
  key_ordered key (x :: l) <->
  (forall y, head l = Some y -> String.leb (key x) (key y) = true)
  /\ key_ordered key l.
Proof.
  split.
  - intros Ho. split.
    + intros y Hy. apply (Ho 0 x y); [done|]. by destruct l.
    + intros i a b Ha Hb. by apply (Ho (S i) a b).
  - intros [Hh Ho] [|i] a b Ha Hb.
    + injection Ha as <-. apply Hh. by destruct l.
    + by apply (Ho i a b).
Qed.

Lemma insert_by_ordered (key : string -> string) (x : string) (l : list string) :
  key_ordered key l -> key_ordered key (insert_by key x l).
Proof.
  induction l as [|y l IH]; intros Ho; cbn.
  - by intros [|i] a b Ha Hb.
  - destruct (String.leb (key x) (key y)) eqn:Hxy.
    + apply key_ordered_cons. split; [|done]. by intros ? [= <-].
    + apply key_ordered_cons in Ho as [Hh Ho].
      apply key_ordered_cons. split; [|by apply IH].
      intros z Hz. destruct l as [|w l]; cbn in Hz.
      * injection Hz as <-.
        destruct (String.leb_total (key x) (key y)); congruence.
      * destruct (String.leb (key x) (key w)); injection Hz as <-.
        -- destruct (String.leb_total (key x) (key y)); congruence.
        -- by apply Hh.
Qed.

Lemma sorted_by_ordered (key : string -> string) (l : list string) :
  key_ordered key (sorted_by key l).
Proof.
  induction l as [|x l IH]; cbn.
  - by intros [|i] a b Ha Hb.
  - by apply insert_by_ordered.
Qed.

Lemma pick_Ok (idx : nat) (l : list string) :
  idx < length l -> exists x, pick idx l = Ok x.
Proof.
  intros Hl. unfold pick.
  destruct (sorted_by basename l !! idx) as [x|] eqn:E; [by exists x|].
  apply lookup_ge_None in E. rewrite length_sorted_by in E. lia.
Qed.

Lemma pick_Raise (idx : nat) (l : list string) :
  ~ idx < length l -> pick idx l = Raise IndexError.
Proof.
  intros Hl. unfold pick.
  destruct (sorted_by basename l !! idx) as [x|] eqn:E; [|done].
  apply lookup_lt_Some in E. rewrite length_sorted_by in E. lia.
Qed.

Lemma pick_elem (idx : nat) (l : list string) (x : string) :
  pick idx l = Ok x -> x ∈ l.
Proof.
  unfold pick. destruct (sorted_by basename l !! idx) as [y|] eqn:E; [|done].
  intros [= ->]. rewrite <- (sorted_by_perm basename l).
  by eapply list_elem_of_lookup_2.
Qed.

Lemma pick_ordered (l : list string) (a b : string) :
  pick 0 l = Ok a -> pick 1 l = Ok b ->
  String.leb (basename a) (basename b) = true.
Proof.
  unfold pick. intros Ha Hb.
  destruct (sorted_by basename l !! 0) as [x|] eqn:E0; [|done].
  destruct (sorted_by basename l !! 1) as [y|] eqn:E1; [|done].
  injection Ha as <-. injection Hb as <-.
  by apply (sorted_by_ordered basename l 0).
Qed.

Lemma elem_of_named_surfaces (name x : string) (surfs morphs : list string) :
  x ∈ named_surfaces name surfs morphs <->
  x ∈ (surfs ++ morphs)%list /\ find_name (basename x) = Some name.
Proof.
  unfold named_surfaces.
  rewrite !list_elem_of_In, List.filter_In, bool_decide_eq_true. done.
Qed.

Lemma select_surfaces_unfold (hemi : string)
    (surfs morphs regs spheres rois : list string) :
  _select_surfaces hemi surfs morphs regs spheres rois =
    (w ← pick (hemi_index hemi) (named_surfaces "white" surfs morphs);
     p ← pick (hemi_index hemi) (named_surfaces "pial" surfs morphs);
     m ← pick (hemi_index hemi) (named_surfaces "midthickness" surfs morphs);
     t ← pick (hemi_index hemi) (named_surfaces "thickness" surfs morphs);
     s ← pick (hemi_index hemi) (sorted_by id regs);
     ts ← pick (hemi_index hemi) (sorted_by id spheres);
     tr ← pick (hemi_index hemi) (sorted_by id rois);
     mret {| white := w; pial := p; midthickness := m; thickness := t;
             sphere_reg := s; template_sphere := ts; template_roi := tr |}).
Proof. reflexivity. Qed.

(** X2. [_select_surfaces] succeeds exactly when each of the four name
    groups and each of the three sphere and ROI lists has an entry at the
    index of the hemisphere (0 for L, 1 for anything else); otherwise it
    raises IndexError. *)
Theorem select_surfaces_enough (hemi : string)
    (surfs morphs regs spheres rois : list string) :
  let idx := hemi_index hemi in
  let enough :=
    idx < length (named_surfaces "white" surfs morphs)
    /\ idx < length (named_surfaces "pial" surfs morphs)
    /\ idx < length (named_surfaces "midthickness" surfs morphs)
    /\ idx < length (named_surfaces "thickness" surfs morphs)
    /\ idx < length regs /\ idx < length spheres /\ idx < length rois in
  (enough -> is_Ok (_select_surfaces hemi surfs morphs regs spheres rois))
  /\ (~ enough ->
      _select_surfaces hemi surfs morphs regs spheres rois = Raise IndexError).
Proof.
  cbv zeta. rewrite select_surfaces_unfold. split.
  - intros (Hw & Hp & Hm & Ht & Hs & Hts & Htr).
    rewrite <- (length_sorted_by id) in Hs, Hts, Htr.
    destruct (pick_Ok _ _ Hw) as [? ->], (pick_Ok _ _ Hp) as [? ->],
      (pick_Ok _ _ Hm) as [? ->], (pick_Ok _ _ Ht) as [? ->],
      (pick_Ok _ _ Hs) as [? ->], (pick_Ok _ _ Hts) as [? ->],
      (pick_Ok _ _ Htr) as [? ->].
    by eexists.
  - intros Hne.
    repeat match goal with
           | |- context [pick ?i ?l] =>
               let Hl := fresh "Hl" in
               destruct (decide (i < length l)) as [Hl|Hl];
               [destruct (pick_Ok _ _ Hl) as [? ->]; cbn
               |by rewrite (pick_Raise _ _ Hl)]
           end.
    rewrite ?length_sorted_by in *. tauto.
Qed.

(** X3. What [_select_surfaces] returns comes from its inputs: each surface
    and morphometry file is one of the files given whose base name carries
    the name of its slot, and the spheres and the ROI are entries of the
    lists they were picked from. *)
Theorem select_surfaces_members (hemi : string)
    (surfs morphs regs spheres rois : list string) (s : selected) :
  _select_surfaces hemi surfs morphs regs spheres rois = Ok s ->
  (white s ∈ (surfs ++ morphs)%list
   /\ find_name (basename (white s)) = Some "white")
  /\ (pial s ∈ (surfs ++ morphs)%list
      /\ find_name (basename (pial s)) = Some "pial")
  /\ (midthickness s ∈ (surfs ++ morphs)%list
      /\ find_name (basename (midthickness s)) = Some "midthickness")
  /\ (thickness s ∈ (surfs ++ morphs)%list
      /\ find_name (basename (thickness s)) = Some "thickness")
  /\ sphere_reg s ∈ regs
  /\ template_sphere s ∈ spheres
  /\ template_roi s ∈ rois.
Proof.
  rewrite select_surfaces_unfold. intros Hs. bind_inv Hs.
  injection Hs as <-. cbn.
  repeat match goal with
         | E : pick _ _ = Ok _ |- _ => apply pick_elem in E
         end.
  rewrite !elem_of_named_surfaces in *.
  rewrite (sorted_by_perm id) in E3, E4, E5. tauto.
Qed.

(** X4. The left hemisphere gets the file that sorts first: in every slot
    the base name of the file selected for L is not after the base name of
    the file selected for any other hemisphere label. *)
Theorem select_surfaces_left_first (hemi : string)
    (surfs morphs regs spheres rois : list string) (l r : selected) :
  hemi <> "L" ->
  _select_surfaces "L" surfs morphs regs spheres rois = Ok l ->
  _select_surfaces hemi surfs morphs regs spheres rois = Ok r ->
  String.leb (basename (white l)) (basename (white r)) = true
  /\ String.leb (basename (pial l)) (basename (pial r)) = true
  /\ String.leb (basename (midthickness l)) (basename (midthickness r)) = true
  /\ String.leb (basename (thickness l)) (basename (thickness r)) = true
  /\ String.leb (basename (sphere_reg l)) (basename (sphere_reg r)) = true
  /\ String.leb (basename (template_sphere l)) (basename (template_sphere r)) = true
  /\ String.leb (basename (template_roi l)) (basename (template_roi r)) = true.
Proof.
  intros Hh. rewrite !select_surfaces_unfold.
  unfold hemi_index. rewrite decide_True by done. rewrite decide_False by done.
  intros Hl Hr. bind_inv Hl. bind_inv Hr.
  injection Hl as <-. injection Hr as <-. cbn.
  repeat split; by eapply pick_ordered.
Qed.

End SelectSurfacesMore.

(** ** Template names and resolutions *)

Section TemplateMore.
Context `{Niworkflows}.

Lemma split_colon_0_app (tpl rest : string) :
  has_colon tpl = false -> split_colon_0 (tpl ++ String ":"%char rest) = tpl.
Proof.
  induction tpl as [|c tpl IH]; intros Hc.
  - reflexivity.
  - rewrite append_cons. cbn in *.
    destruct (Ascii.eqb c ":"); [done|]. by rewrite IH.
Qed.

Lemma split_colon_0_id (tpl : string) :
  has_colon tpl = false -> split_colon_0 tpl = tpl.
Proof.
  induction tpl as [|c tpl IH]; intros Hc; [done|]. cbn in *.
  destruct (Ascii.eqb c ":"); [done|]. by rewrite IH.
Qed.

(** X5. A cohort modifier after the colon plays no part in the lookup of
    the template: [_select_template] gives the same result with and without
    it, and [_split_spec] reports the bare name as template while keeping
    the full name as space. *)
Theorem cohort_modifier_dropped (tpl cohort : string) (specs : dict) :
  has_colon tpl = false ->
  _select_template (tpl ++ ":" ++ cohort, specs) = _select_template (tpl, specs)
  /\ _split_spec (tpl ++ ":" ++ cohort, specs)
     = (tpl ++ ":" ++ cohort, tpl, specs).
Proof.
  intros Hc. unfold _select_template, _split_spec.
  change (tpl ++ ":" ++ cohort) with (tpl ++ String ":"%char cohort).
  by rewrite (split_colon_0_app _ _ Hc), (split_colon_0_id _ Hc).
Qed.

(** X6. The resolution looked up is [res] when it is truthy, else
    [resolution] when that is truthy, else the native default; the
    dictionary handed to the lookup is the request without [res], with
    [suffix] defaulting to T1w and [resolution] overwritten by the
    resolution chosen (2, then 1, for the native default). *)
Theorem select_template_resolution_choice (tpl : string) (specs : dict) :
  let chosen :=
    py_or (default PyNone (specs !! "res"))
      (py_or (default PyNone (specs !! "resolution")) (PyStr "native")) in
  let base :=
    <["suffix" := default (PyStr "T1w") (specs !! "suffix")]>
      (delete "res" specs) in
  let t := split_colon_0 tpl in
  _select_template (tpl, specs) =
    if decide (chosen = PyStr "native") then
      match get_template_specs t (<["resolution" := PyInt 2]> base) with
      | (_, Ok out) => Ok out.1
      | (specs1, Raise RuntimeError) =>
          fst <$> (get_template_specs t (<["resolution" := PyInt 1]> specs1)).2
      | (_, Raise e) => Raise e
      end
    else fst <$> (get_template_specs t (<["resolution" := chosen]> base)).2.
Proof.
  cbv zeta. unfold _select_template, pop_resolution.
  rewrite lookup_insert_ne by done.
  rewrite (delete_insert_ne _ "res" "suffix") by done.
  rewrite (lookup_insert_ne _ "suffix" "resolution") by done.
  rewrite lookup_delete_ne by done.
  set (r1 := default PyNone (specs !! "res")).
  set (r2 := py_or (default PyNone (specs !! "resolution")) (PyStr "native")).
  destruct (truthy r1) eqn:Ht; cbn [fst snd].
  - assert (py_or r1 r2 = r1) as -> by (unfold py_or; by rewrite Ht).
    destruct (decide (r1 = PyStr "native")) as [->|Hne].
    + rewrite decide_False by (by intros ?).
      by destruct (get_template_specs _ _) as [? [?|[]]].
    + by rewrite decide_True.
  - assert (py_or r1 r2 = r2) as -> by (unfold py_or; by rewrite Ht).
    rewrite !insert_delete_eq.
    destruct (decide (r2 = PyStr "native")) as [->|Hne].
    + rewrite decide_False by (by intros ?).
      by destruct (get_template_specs _ _) as [? [?|[]]].
    + by rewrite decide_True.
Qed.

End TemplateMore.

(** ** More on the standard-space resampler *)

Section StdTransMore.
Import StdTrans Maths.
Context `{ANTs} `{Niworkflows}.
Variables (freesurfer multiecho use_compression : bool).

Local Abbreviation branch := (StdTrans.branch freesurfer multiecho use_compression).
Local Abbreviation run := (StdTrans.run freesurfer multiecho use_compression).

(** X7. A branch is spawned for exactly the references that are standard
    and three-dimensional, in the order of the request. *)
Theorem std_vol_references_selects (references : list Reference) :
  (forall t, t ∈ std_vol_references references <->
     exists r, r ∈ references /\ standard r = true /\ dim r = 3
               /\ t = (fullname r, spec r))
  /\ std_vol_references references
       `sublist_of` ((fun r => (fullname r, spec r)) <$> references).
Proof.
  unfold std_vol_references. split.
  - intros t. rewrite list_elem_of_fmap. split.
    + intros (r & -> & [[Hs Hd] Hr]%list_elem_of_filter). by exists r.
    + intros (r & Hr & Hs & Hd & ->). exists r. split; [done|].
      by apply list_elem_of_filter.
  - apply fmap_sublist, sublist_filter.
Qed.

Lemma map_result_id_Raise {A} (rs : list (result A)) (r : result A) :
  r ∈ rs -> is_Raise r -> is_Raise (map_result id rs).
Proof.
  intros Hin [e ->]. induction rs as [|x rs IH]; [by apply elem_of_nil in Hin|].
  apply elem_of_cons in Hin as [<-|Hin]; cbn; [by exists e|].
  destruct x as [a|e']; cbn; [|by exists e'].
  destruct (IH Hin) as [e'' ->]. by exists e''.
Qed.

Lemma map_result_id_inv {A} (rs : list (result A)) (xs : list A) :
  map_result id rs = Ok xs -> rs = Ok <$> xs.
Proof.
  revert xs. induction rs as [|r rs IH]; intros xs; cbn.
  - by intros [= <-].
  - destruct r as [a|e]; cbn; [|done].
    destruct (map_result id rs) as [ys|e]; cbn; [|done].
    intros [= <-]. cbn. by rewrite (IH ys).
Qed.

(** X8. A requested space whose full name, cohort modifier included, is
    not among [templates] makes its branch raise ValueError, and with it
    the whole workflow: no output is delivered for any space. *)
Theorem missing_template_key (references : list Reference) (i : inputs)
    (order : list nat) (t : string * dict) :
  t.1 ∉ templates i ->
  branch i t = Raise ValueError
  /\ (order ≡ₚ seq 0 (length (std_vol_references references)) ->
      t ∈ std_vol_references references ->
      exists e, run references i order = Some (Raise e)).
Proof.
  intros Hnin.
  assert (branch i t = Raise ValueError) as Hb.
  { destruct t as [space spc]. unfold StdTrans.branch, _split_spec.
    by rewrite KeySelect_missing. }
  split; [done|]. intros Hperm Hin.
  rewrite (run_perm _ _ _ _ _ _ Hperm).
  destruct (map_result_id_Raise (branch i <$> std_vol_references references)
              (branch i t)) as [e ->].
  - apply list_elem_of_fmap. by exists t.
  - rewrite Hb. by exists ValueError.
  - by exists e.
Qed.

Lemma branch_optional (i : inputs) (t : string * dict) (n : nodes) :
  branch i t = Ok n ->
  aseg_std_tfm n
  = (if freesurfer
     then Some (ApplyTransforms "MultiLabel" (bold_aseg i) (gen_ref n) [select_std n])
     else None)
  /\ aparc_std_tfm n
     = (if freesurfer
        then Some (ApplyTransforms "MultiLabel" (bold_aparc i) (gen_ref n) [select_std n])
        else None)
  /\ t2star_std_tfm n
     = (if multiecho
        then Some (ApplyTransforms "LanczosWindowedSinc" (t2star i) (gen_ref n)
                     [select_std n])
        else None).
Proof.
  destruct t as [space spc]. unfold StdTrans.branch, _split_spec. intros Hb.
  bind_inv Hb. by injection Hb as <-.
Qed.

Lemma omap_fmap_all_Some {A B C} (h : A -> B) (f : B -> option C)
    (g : A -> C) (l : list A) :
  Forall (fun x => f (h x) = Some (g x)) l -> omap f (h <$> l) = g <$> l.
Proof. induction 1 as [|x l Hx _ IH]; cbn; [done|]. by rewrite Hx, IH. Qed.

(** X9. The segmentation outputs exist exactly with [freesurfer] and the
    T2* output exactly with [multiecho]; when they exist they hold, for
    each requested space in order, the image resampled with only the
    anatomical-to-standard transform of that space, labels with MultiLabel
    and T2* with LanczosWindowedSinc. *)
Theorem optional_outputs_follow_flags (references : list Reference)
    (i : inputs) (order : list nat) (out : fields list) :
  order ≡ₚ seq 0 (length (std_vol_references references)) ->
  run references i order = Some (Ok out) ->
  exists ns,
    Forall2 (fun t n => branch i t = Ok n) (std_vol_references references) ns
    /\ joined_optional freesurfer (bold_aseg_std out)
         ((fun n => ApplyTransforms "MultiLabel" (bold_aseg i) (gen_ref n)
                      [select_std n]) <$> ns)
    /\ joined_optional freesurfer (bold_aparc_std out)
         ((fun n => ApplyTransforms "MultiLabel" (bold_aparc i) (gen_ref n)
                      [select_std n]) <$> ns)
    /\ joined_optional multiecho (t2star_std out)
         ((fun n => ApplyTransforms "LanczosWindowedSinc" (t2star i) (gen_ref n)
                      [select_std n]) <$> ns).
Proof.
  intros Hperm. rewrite (run_perm _ _ _ _ _ _ Hperm).
  destruct (map_result id _) as [ns|e] eqn:Hmap; [|done].
  intros [= <-]. apply map_result_id_inv in Hmap.
  assert (Forall2 (fun t n => branch i t = Ok n)
            (std_vol_references references) ns) as Hall.
  { apply list_eq_Forall2 in Hmap. by apply Forall2_fmap_1 in Hmap. }
  exists ns. split; [done|].
  assert (Forall (fun n =>
            aseg_std_tfm n
            = (if freesurfer
               then Some (ApplyTransforms "MultiLabel" (bold_aseg i) (gen_ref n)
                            [select_std n])
               else None)
            /\ aparc_std_tfm n
               = (if freesurfer
                  then Some (ApplyTransforms "MultiLabel" (bold_aparc i)
                               (gen_ref n) [select_std n])
                  else None)
            /\ t2star_std_tfm n
               = (if multiecho
                  then Some (ApplyTransforms "LanczosWindowedSinc" (t2star i)
                               (gen_ref n) [select_std n])
                  else None)) ns) as Hopt.
  { clear Hmap Hperm.
    induction Hall as [|t n ts ns' Ht _ IH];
      [constructor|constructor; [by eapply branch_optional|done]]. }
  clear Hall Hmap Hperm.
  unfold joined_optional, StdTrans.outputnode; cbn.
  destruct freesurfer, multiecho; repeat split; try done; f_equal;
    apply omap_fmap_all_Some; (eapply Forall_impl; [exact Hopt|]);
    by intros n (? & ? & ?).
Qed.

(** X10. The brain mask travels with the front part of the chain of the
    series: it is resampled, with MultiLabel, through the
    anatomical-to-standard transform and the functional-to-anatomical
    affine only; the chain of the series is that pair followed by the
    field warp and the motion transforms. *)
Theorem mask_chain_is_prefix (i : inputs) (t : string * dict) (n : nodes) :
  branch i t = Ok n ->
  mask_merge_tfms n = select_std n :: _aslist (itk_bold_to_t1 i)
  /\ merge_xforms n =
       (mask_merge_tfms n ++ merge_in (fieldwarp i) ++ merge_in (hmc_xforms i))%list
  /\ bold_mask_std (poutputnode n)
     = ApplyTransforms "MultiLabel" (bold_mask i) (gen_ref n) (mask_merge_tfms n).
Proof.
  intros Hb.
  destruct (branch_inv _ _ _ i t n Hb)
    as (_ & _ & _ & _ & _ & Hmask & Hm & Hx & _).
  assert (mask_merge_tfms n = select_std n :: _aslist (itk_bold_to_t1 i)) as Hpre.
  { rewrite Hmask. unfold Merge. cbn. by rewrite app_nil_r. }
  split; [done|]. split; [|done].
  rewrite Hx, Hpre. unfold Merge. cbn. by rewrite app_nil_r.
Qed.

End StdTransMore.

(** ** More on the goodvoxels mask *)

Section GoodVoxelsMore.
Import FSL GoodVoxels.
Local Open Scope Q_scope.
Context `{Kernels} `{ANTs}.

Lemma keep_pos (t c m : Q) :
  0 < keep t c (bin m) <-> 0 < m /\ (c < t \/ c <= 0).
Proof.
  unfold keep, bin, thr.
  repeat (destruct (Qlt_le_dec _ _)); split; try lra.
  all: intros [? [?|?]]; lra.
Qed.


Lemma pointwise_Ok (f : Q -> Q -> Q) (a b c : volume) :
  pointwise f a b = Ok c -> length a = length b /\ c = zip_with f a b.
Proof.
  unfold pointwise. destruct (decide _); [|done]. by intros [= <-].
Qed.

Lemma run_inv_more (i : inputs) (n : nodes) :
  run i = Ok n ->
  cov_norm n = (fun x => div x (cov_ribbon_mean n)) <$> cov_volume n
  /\ pointwise div (cov_norm n) (cov_ribbon_norm_smooth n)
     = Ok (cov_norm_modulate n)
  /\ pointwise mas (goodvoxels_mask n) (ribbon_boldsrc_xfm n)
     = Ok (goodvoxels_ribbon_mask n).
Proof.
  unfold run. intros Hr. bind_inv Hr. injection Hr as <-.
  cbn [cov_norm cov_ribbon_mean cov_volume cov_ribbon_norm_smooth
       cov_norm_modulate goodvoxels_mask ribbon_boldsrc_xfm
       goodvoxels_ribbon_mask].
  repeat split.
  - cbn in E4. by injection E4 as <-.
  - cbn in E5. by destruct (pointwise div _ _).
  - cbn in E12. by destruct (pointwise mas _ _).
Qed.

Lemma goodvoxels_mask_zip (i : inputs) (n : nodes) :
  run i = Ok n ->
  length (cov_norm_modulate n) = length (mean_volume n)
  /\ goodvoxels_mask n
     = zip_with (keep (upper_thr_val n)) (cov_norm_modulate n)
         (bin <$> mean_volume n).
Proof.
  intros Hr.
  destruct (run_inv i n Hr) as (_ & _ & _ & _ & _ & _ & _ & _ & Hb & _ & Hm).
  rewrite goodvoxels_mask_from_eq, Hb in Hm.
  destruct (decide _) as [Hl|]; [|done]. rewrite length_fmap in Hl.
  by injection Hm as <-.
Qed.

(** X12. A voxel of the goodvoxels mask is positive exactly when its
    temporal mean is positive and its modulated COV is strictly below the
    upper threshold or not positive, so a voxel sitting on the threshold is
    dropped; the ribbon version is positive exactly where, in addition, the
    ribbon is. *)
Theorem goodvoxels_voxel (i : inputs) (n : nodes) :
  run i = Ok n ->
  length (goodvoxels_mask n) = length (mean_volume n)
  /\ length (goodvoxels_ribbon_mask n) = length (mean_volume n)
  /\ forall k m c x r y,
       mean_volume n !! k = Some m ->
       cov_norm_modulate n !! k = Some c ->
       goodvoxels_mask n !! k = Some x ->
       ribbon_boldsrc_xfm n !! k = Some r ->
       goodvoxels_ribbon_mask n !! k = Some y ->
       (0 < x <-> 0 < m /\ (c < upper_thr_val n \/ c <= 0))
       /\ (0 < y <-> 0 < r /\ 0 < x).
Proof.
  intros Hr.
  destruct (goodvoxels_mask_zip i n Hr) as [Hl Hz].
  destruct (run_inv_more i n Hr) as (_ & _ & Hrib).
  apply pointwise_Ok in Hrib as [Hlr Hy].
  assert (length (goodvoxels_mask n) = length (mean_volume n)) as Hlm.
  { rewrite Hz, length_zip_with, length_fmap. lia. }
  split; [done|]. split.
  { rewrite Hy, length_zip_with. lia. }
  intros k m c x r y Hm Hc Hx Hrk Hyk. unfold volume in *. split.
  - rewrite Hz in Hx. apply lookup_zip_with_Some in Hx as (c' & b & -> & Hc' & Hb).
    rewrite list_lookup_fmap, Hm in Hb. injection Hb as <-.
    rewrite Hc in Hc'. injection Hc' as <-. apply keep_pos.
  - rewrite Hy in Hyk.
    apply lookup_zip_with_Some in Hyk as (x' & r' & -> & Hx' & Hr').
    rewrite Hx in Hx'. injection Hx' as <-.
    rewrite Hrk in Hr'. injection Hr' as <-.
    unfold mas. destruct (Qlt_le_dec 0 r); split; try lra; intros [? ?]; lra.
Qed.


End GoodVoxelsMore.

(** ** Sampling to FreeSurfer surfaces *)

Section SurfFacts.
Import Surf.
Context `{FreeSurfer}.

Lemma endswith_eq (s suffix : string) :
  endswith s suffix =
    if String.eqb s suffix then true
    else match s with
         | EmptyString => false
         | String _ s' => endswith s' suffix
         end.
Proof. by destruct s. Qed.

Lemma endswith_iff (s suffix : string) :
  endswith s suffix = true <-> exists p, s = p ++ suffix.
Proof.
  split.
  - induction s as [|c s IH]; rewrite endswith_eq.
    + destruct (String.eqb_spec EmptyString suffix) as [<-|Hne]; [|done].
      intros _. by exists EmptyString.
    + destruct (String.eqb_spec (String c s) suffix) as [<-|Hne].
      * intros _. by exists EmptyString.
      * intros [p ->]%IH. exists (String c p). by rewrite append_cons.
  - intros [p ->]. induction p as [|c p IH].
    + rewrite append_nil_l, endswith_eq. by rewrite String.eqb_refl.
    + rewrite append_cons, endswith_eq.
      by destruct (String.eqb _ suffix).
Qed.

(** X14. [_itk2lta] reads its input as a FreeSurfer transform exactly when
    the file name ends in .lta, and as an ITK transform otherwise; whatever
    the input, it writes to out.lta in the working directory. *)
Theorem itk2lta_format (in_file src_file dst_file : string) :
  (_itk2lta in_file src_file dst_file).1 = cwd ++ "/out.lta"
  /\ ((exists p, in_file = p ++ ".lta") ->
      (_itk2lta in_file src_file dst_file).2
      = nt_linear_to_lta in_file "fs" src_file dst_file)
  /\ ((forall p, in_file <> p ++ ".lta") ->
      (_itk2lta in_file src_file dst_file).2
      = nt_linear_to_lta in_file "itk" src_file dst_file).
Proof.
  unfold _itk2lta. cbn [fst snd]. split; [done|]. split.
  - intros Hp. apply endswith_iff in Hp. by rewrite Hp.
  - intros Hn. destruct (endswith in_file ".lta") eqn:He; [|done].
    apply endswith_iff in He as [p ->]. by destruct (Hn p).
Qed.

(** X15. Whatever the order in which the branches complete, the surface
    workflow returns the requested spaces in order as [target] and, for
    each, the pair of left and right hemisphere files; the sampler is
    aimed at the subject itself for fsnative and at the named template
    subject otherwise, and medial-wall NaNs are written only with
    [medial_surface_nan]. *)
Theorem surf_join_correspondence (medial_surface_nan : bool)
    (surface_spaces : list string) (i : inputs) (order : list nat) :
  order ≡ₚ seq 0 (length surface_spaces) ->
  let sample space hemi :=
    SampleToSurface hemi (subjects_dir i) (subject_id i)
      (Rename (source_file i) space)
      (_itk2lta (t1w2fsnative_xfm i) (source_file i)
         (FreeSurferSource_T1 (subject_id i) (subjects_dir i))).2
      (if decide (space = "fsnative") then subject_id i else space) in
  let finish g :=
    GiftiSetAnatomicalStructure
      (if medial_surface_nan then MedialNaNs (subjects_dir i) g else g) in
  Surf.run medial_surface_nan surface_spaces i order
  = Some {| surfaces :=
              (fun space => [finish (sample space "lh");
                             finish (sample space "rh")])
                <$> surface_spaces;
            target := surface_spaces |}.
Proof.
  intros Hperm. cbv zeta. unfold Surf.run.
  rewrite (fan_out_join_perm _ _ _ Hperm). cbn -[_itk2lta].
  f_equal. f_equal.
  - rewrite <- list_fmap_compose. apply list_fmap_ext. intros _ space _.
    unfold Surf.branch, select_target. cbn -[_itk2lta].
    by destruct medial_surface_nan.
  - rewrite <- list_fmap_compose. by rewrite list_fmap_id.
Qed.

End SurfFacts.

(** ** Surface resampling with the goodvoxels mask *)

Section FsLRMore.
Import FsLR.
Context `{Surfaces} `{FSL.Kernels} `{ANTs}.
Variable grayord_density : string.

(** X16. With [estimate_goodvoxels] the goodvoxels workflow runs on the
    same series and ribbon, its mask (not the ribbon-restricted one) is the
    volume ROI of both hemispheres and is passed to the output, and its
    failure is the failure of the whole workflow; the hemispheres are
    returned left first whichever completes first. *)
Theorem fsLR_with_goodvoxels (i : inputs) (order : list nat) :
  order ≡ₚ [0; 1] ->
  FsLR.run grayord_density true i order =
    Some (g ← GoodVoxels.run
                {| GoodVoxels.anat_ribbon := anat_ribbon i;
                   GoodVoxels.bold_file := bold_file i |};
          let roi := Some (GoodVoxels.goodvoxels_mask g) in
          nl ← FsLR.hemisphere grayord_density i roi "L";
          nr ← FsLR.hemisphere grayord_density i roi "R";
          mret {| bold_fsLR := [mask_fsLR nl; mask_fsLR nr];
                  goodvoxels_mask := roi |}).
Proof.
  intros Hperm. unfold FsLR.run.
  destruct (GoodVoxels.run _) as [g|e]; [|done]. cbn [fmap result_fmap].
  rewrite (fan_out_join_perm _ ["L"; "R"] order Hperm).
  cbn -[FsLR.hemisphere].
  destruct (FsLR.hemisphere _ _ _ "L") as [nl|el]; [|done].
  cbn -[FsLR.hemisphere].
  by destruct (FsLR.hemisphere _ _ _ "R") as [nr|er].
Qed.

End FsLRMore.

(** ** The further properties on concrete inputs *)

Section MoreInstances.
Import Sample SampleSurf.
Local Open Scope Q_scope.

Lemma find_name_occurrence_witness :
  "pial" ∈ surface_names
  /\ exists pre post,
       "sub-01_hemi-L_pial.surf.gii" = pre ++ "pial" ++ post
       /\ ~ (exists p : string, pre = p ++ "d").
Proof.
  apply (proj1 (find_name_occurrence "sub-01_hemi-L_pial.surf.gii") "pial").
  vm_compute. reflexivity.
Defined.

Lemma select_surfaces_enough_witness :
  is_Ok (_select_surfaces "R" (FsLR.surfaces fsLR_inputs)
           (FsLR.morphometrics fsLR_inputs) (FsLR.sphere_reg_fsLR fsLR_inputs)
           (tf_get_fsLR_sphere "32k") FsLR.template_rois)
  /\ _select_surfaces "R" (FsLR.surfaces fsLR_inputs)
       (FsLR.morphometrics fsLR_inputs) ["lh.sphere_reg.surf.gii"]
       (tf_get_fsLR_sphere "32k") FsLR.template_rois = Raise IndexError.
Proof.
  split.
  - apply (proj1 (select_surfaces_enough "R" _ _ _ _ _)).
    repeat split; vm_compute; lia.
  - apply (proj2 (select_surfaces_enough "R" _ _ _ _ _)).
    intros (_ & _ & _ & _ & Hregs & _). vm_compute in Hregs. lia.
Defined.

Lemma itk2lta_format_witness :
  (_itk2lta "/anat/t1w2fsnative.lta" "bold.nii.gz" "T1.mgz").2
  = nt_linear_to_lta "/anat/t1w2fsnative.lta" "fs" "bold.nii.gz" "T1.mgz"
  /\ (_itk2lta "/anat/t1w2fsnative.lta.txt" "bold.nii.gz" "T1.mgz").2
     = nt_linear_to_lta "/anat/t1w2fsnative.lta.txt" "itk" "bold.nii.gz" "T1.mgz".
Proof.
  split.
  - apply (proj1 (proj2 (itk2lta_format _ _ _))).
    by exists "/anat/t1w2fsnative".
  - reflexivity.
Defined.

Lemma select_surfaces_members_witness :
  exists s,
    _select_surfaces "L" (FsLR.surfaces fsLR_inputs)
      (FsLR.morphometrics fsLR_inputs) (FsLR.sphere_reg_fsLR fsLR_inputs)
      (tf_get_fsLR_sphere "32k") FsLR.template_rois = Ok s
    /\ white s ∈ (FsLR.surfaces fsLR_inputs ++ FsLR.morphometrics fsLR_inputs)%list
    /\ find_name (basename (thickness s)) = Some "thickness".
Proof.
  destruct (_select_surfaces "L" (FsLR.surfaces fsLR_inputs)
              (FsLR.morphometrics fsLR_inputs) (FsLR.sphere_reg_fsLR fsLR_inputs)
              (tf_get_fsLR_sphere "32k") FsLR.template_rois) as [s|e] eqn:E;
    [|vm_compute in E; discriminate].
  exists s. split; [reflexivity|].
  destruct (select_surfaces_members _ _ _ _ _ _ s E)
    as ([Hw _] & _ & _ & [_ Ht] & _).
  by split.
Defined.

Lemma select_surfaces_left_first_witness :
  exists l r,
    _select_surfaces "L" (FsLR.surfaces fsLR_inputs)
      (FsLR.morphometrics fsLR_inputs) (FsLR.sphere_reg_fsLR fsLR_inputs)
      (tf_get_fsLR_sphere "32k") FsLR.template_rois = Ok l
    /\ _select_surfaces "R" (FsLR.surfaces fsLR_inputs)
         (FsLR.morphometrics fsLR_inputs) (FsLR.sphere_reg_fsLR fsLR_inputs)
         (tf_get_fsLR_sphere "32k") FsLR.template_rois = Ok r
    /\ String.leb (basename (pial l)) (basename (pial r)) = true.
Proof.
  destruct (_select_surfaces "L" (FsLR.surfaces fsLR_inputs)
              (FsLR.morphometrics fsLR_inputs) (FsLR.sphere_reg_fsLR fsLR_inputs)
              (tf_get_fsLR_sphere "32k") FsLR.template_rois) as [l|e] eqn:El;
    [|vm_compute in El; discriminate].
  destruct (_select_surfaces "R" (FsLR.surfaces fsLR_inputs)
              (FsLR.morphometrics fsLR_inputs) (FsLR.sphere_reg_fsLR fsLR_inputs)
              (tf_get_fsLR_sphere "32k") FsLR.template_rois) as [r|e] eqn:Er;
    [|vm_compute in Er; discriminate].
  exists l, r. split; [reflexivity|]. split; [reflexivity|].
  assert ("R" <> "L") as Hne by discriminate.
  by destruct (select_surfaces_left_first "R" _ _ _ _ _ l r Hne El Er)
    as (_ & Hp & _).
Defined.

Lemma cohort_modifier_dropped_witness :
  _select_template ("MNIInfant" ++ ":" ++ "cohort-1", ∅)
  = _select_template ("MNIInfant", ∅)
  /\ _split_spec ("MNIInfant" ++ ":" ++ "cohort-1", ∅)
     = ("MNIInfant" ++ ":" ++ "cohort-1", "MNIInfant", ∅).
Proof. apply (cohort_modifier_dropped "MNIInfant" "cohort-1" ∅). reflexivity. Defined.

Lemma missing_template_key_witness :
  StdTrans.branch false true true std_inputs ("MNIPediatricAsym:cohort-6", ∅)
  = Raise ValueError.
Proof.
  refine (proj1 (missing_template_key false true true references std_inputs []
                   ("MNIPediatricAsym:cohort-6", ∅) _)).
  apply (bool_decide_unpack _). vm_compute. exact I.
Defined.

Lemma optional_outputs_follow_flags_witness :
  exists out,
    StdTrans.run false true true references std_inputs [1; 0]%nat = Some (Ok out)
    /\ StdTrans.bold_aseg_std out = None
    /\ StdTrans.t2star_std out = Some [[3; 4]; [3; 4]].
Proof.
  assert ([1; 0]%nat ≡ₚ seq 0 (length (StdTrans.std_vol_references references)))
    as Hperm by (rewrite sample_targets; apply perm_swap).
  destruct (StdTrans.run false true true references std_inputs [1; 0]%nat)
    as [[out|e]|] eqn:E; [|vm_compute in E; discriminate..].
  exists out. split; [reflexivity|].
  destruct (optional_outputs_follow_flags false true true references
              std_inputs [1; 0]%nat out Hperm E) as (ns & _ & Hseg & _ & Ht2).
  split; [exact Hseg|].
  vm_compute in E. injection E as <-. reflexivity.
Defined.

Lemma mask_chain_is_prefix_witness :
  exists n,
    sample_branch = Ok n
    /\ StdTrans.mask_merge_tfms n = ["anat2nlin6.h5"; "bold2t1.txt"]
    /\ StdTrans.merge_xforms n
       = (StdTrans.mask_merge_tfms n
            ++ ["fieldwarp.h5"; "hmc0.txt"; "hmc1.txt"])%list.
Proof.
  destruct sample_branch as [n|e] eqn:E; [|vm_compute in E; discriminate].
  exists n. split; [reflexivity|].
  destruct (mask_chain_is_prefix false true true std_inputs _ n E)
    as (Hpre & Hx & _).
  split; [|exact Hx].
  rewrite Hpre. vm_compute in E. injection E as <-. reflexivity.
Defined.

Lemma goodvoxels_voxel_witness :
  exists n,
    GoodVoxels.run goodvoxels_inputs = Ok n
    /\ length (GoodVoxels.goodvoxels_mask n) = length (GoodVoxels.mean_volume n).
Proof.
  destruct (GoodVoxels.run goodvoxels_inputs) as [n|e] eqn:E;
    [|vm_compute in E; discriminate].
  exists n. split; [reflexivity|].
  by destruct (goodvoxels_voxel goodvoxels_inputs n E) as (Hl & _).
Defined.


Lemma surf_join_correspondence_witness :
  Surf.run true ["fsnative"; "fsaverage5"] surf_inputs [1; 0]%nat
  = Some {| Surf.surfaces :=
              [["nan(lh.fsnative.nii.gz@sub-01)"; "nan(rh.fsnative.nii.gz@sub-01)"];
               ["nan(lh.fsaverage5.nii.gz@fsaverage5)";
                "nan(rh.fsaverage5.nii.gz@fsaverage5)"]];
            Surf.target := ["fsnative"; "fsaverage5"] |}.
Proof.
  rewrite (surf_join_correspondence true ["fsnative"; "fsaverage5"] surf_inputs
             [1; 0]%nat); [reflexivity|apply perm_swap].
Defined.

Lemma fsLR_with_goodvoxels_witness :
  exists out,
    FsLR.run "91k" true fsLR_inputs [1; 0]%nat = Some (Ok out)
    /\ length (FsLR.bold_fsLR out) = 2%nat
    /\ is_Some (FsLR.goodvoxels_mask out).
Proof.
  rewrite (fsLR_with_goodvoxels "91k" fsLR_inputs [1; 0]%nat (perm_swap _ _ _)).
  eexists. split; [vm_compute; reflexivity|]. split; [reflexivity|by eexists].
Defined.

End MoreInstances.
